(** * Centratore Oggetti: layout computation and view transform

    A shallow embedding of [src/App.tsx] (the layout computation of
    [calculatePositions]) and of [src/Visualization.tsx] (the pan/zoom
    transform of the diagram and the rule that hides dimension labels).

    Numbers.  A JavaScript number is an IEEE 754 double, and the code is read
    in two ways.  In the exact reading a number is a [jsnum]: NaN, the two
    infinities, or a finite value carried by an exact rational, so that no
    operation rounds or overflows, and the two zeros are identified.  The
    statements made for all inputs are proved on this reading and keep to
    what rounding leaves alone: which branch is taken and what it stores,
    equalities between the very expressions the code computes, and order
    facts that a monotone rounding preserves.  In the binary64 reading
    (module [Binary64]) a number is a primitive float; the same code is
    evaluated on doubles to show, at concrete inputs, what rounding changes.
    Numeric equality is [Qeq] on the finite values of the exact reading, as
    [===] is numeric equality in the source. *)

From Stdlib Require Import ZArith QArith Qminmax Qround Lqa Lia Bool List.
From Stdlib Require Import Ascii String DecimalString.
From Stdlib Require PrimFloat SpecFloat FloatOps.
Import ListNotations.

Local Open Scope Q_scope.

(** ** JavaScript numbers *)

Module JS.

Inductive jsnum : Type :=
| JNaN
| JPosInf
| JNegInf
| JFin (q : Q).

(** The result of [parseInt]: NaN or an integral number. *)
Inductive jsint : Type :=
| INaN
| IInt (z : Z).

Definition num_of (n : jsint) : jsnum :=
  match n with
  | INaN => JNaN
  | IInt z => JFin (inject_Z z)
  end.

Definition Qlt_bool (a b : Q) : bool := negb (Qle_bool b a).

Definition isNaN (x : jsnum) : bool :=
  match x with JNaN => true | _ => false end.

Definition isFinite (x : jsnum) : bool :=
  match x with JFin _ => true | _ => false end.

(** [a <= b]; every comparison with NaN is false. *)
Definition jle (a b : jsnum) : bool :=
  match a, b with
  | JNaN, _ | _, JNaN => false
  | JNegInf, _ => true
  | _, JPosInf => true
  | JPosInf, _ => false
  | _, JNegInf => false
  | JFin x, JFin y => Qle_bool x y
  end.

(** [a < b]. *)
Definition jlt (a b : jsnum) : bool :=
  match a, b with
  | JNaN, _ | _, JNaN => false
  | JPosInf, _ => false
  | _, JNegInf => false
  | JNegInf, _ => true
  | _, JPosInf => true
  | JFin x, JFin y => Qlt_bool x y
  end.

(** [a > b]. *)
Definition jgt (a b : jsnum) : bool := jlt b a.

(** [a === b] on numbers: NaN differs from everything, itself included. *)
Definition jeqb (a b : jsnum) : bool :=
  match a, b with
  | JPosInf, JPosInf => true
  | JNegInf, JNegInf => true
  | JFin x, JFin y => Qeq_bool x y
  | _, _ => false
  end.

Definition jeq (a b : jsnum) : Prop :=
  match a, b with
  | JPosInf, JPosInf => True
  | JNegInf, JNegInf => True
  | JFin x, JFin y => x == y
  | _, _ => False
  end.

Definition jopp (a : jsnum) : jsnum :=
  match a with
  | JNaN => JNaN
  | JPosInf => JNegInf
  | JNegInf => JPosInf
  | JFin x => JFin (- x)
  end.

Definition jadd (a b : jsnum) : jsnum :=
  match a, b with
  | JNaN, _ | _, JNaN => JNaN
  | JPosInf, JNegInf | JNegInf, JPosInf => JNaN
  | JPosInf, _ | _, JPosInf => JPosInf
  | JNegInf, _ | _, JNegInf => JNegInf
  | JFin x, JFin y => JFin (x + y)
  end.

Definition jsub (a b : jsnum) : jsnum := jadd a (jopp b).

(** An infinity scaled by the sign of a finite factor; [inf * 0] is NaN. *)
Definition inf_times (pos : bool) (x : Q) : jsnum :=
  if Qeq_bool x 0 then JNaN
  else if Bool.eqb pos (Qlt_bool 0 x) then JPosInf else JNegInf.

Definition jmul (a b : jsnum) : jsnum :=
  match a, b with
  | JNaN, _ | _, JNaN => JNaN
  | JPosInf, JPosInf | JNegInf, JNegInf => JPosInf
  | JPosInf, JNegInf | JNegInf, JPosInf => JNegInf
  | JPosInf, JFin x | JFin x, JPosInf => inf_times true x
  | JNegInf, JFin x | JFin x, JNegInf => inf_times false x
  | JFin x, JFin y => JFin (x * y)
  end.

Definition jdiv (a b : jsnum) : jsnum :=
  match a, b with
  | JNaN, _ | _, JNaN => JNaN
  | JFin _, JPosInf | JFin _, JNegInf => JFin 0
  | JFin x, JFin y =>
      if Qeq_bool y 0 then inf_times true x else JFin (x / y)
  | JPosInf, JFin y => if Qlt_bool y 0 then JNegInf else JPosInf
  | JNegInf, JFin y => if Qlt_bool y 0 then JPosInf else JNegInf
  | _, _ => JNaN
  end.

(** ToBoolean on a number: NaN and zero are falsy. *)
Definition truthy (a : jsnum) : bool :=
  match a with
  | JNaN => false
  | JFin x => negb (Qeq_bool x 0)
  | _ => true
  end.

(** [a || b] on numbers. *)
Definition jor (a b : jsnum) : jsnum := if truthy a then a else b.

(** [x % 1 === 0]: true exactly on the finite integral values. *)
Definition is_integral (a : jsnum) : bool :=
  match a with
  | JFin x => Z.eqb (Qnum x mod Zpos (Qden x)) 0
  | _ => false
  end.

End JS.
Export JS.

(** ** Strings and the built-in conversions *)

Module Str.

Local Open Scope string_scope.

Definition nl : string := String (ascii_of_nat 10) EmptyString.
Definition dquote : string := String (ascii_of_nat 34) EmptyString.

Definition is_space (c : ascii) : bool :=
  let n := nat_of_ascii c in
  (Nat.eqb n 32 || (Nat.leb 9 n && Nat.leb n 13))%bool.

Definition digit_of (c : ascii) : option Z :=
  let n := Z.of_nat (nat_of_ascii c) in
  if ((48 <=? n) && (n <=? 57))%Z%bool then Some (n - 48)%Z else None.

Fixpoint skip_spaces (s : string) : string :=
  match s with
  | String c r => if is_space c then skip_spaces r else s
  | EmptyString => s
  end.

(** Longest run of decimal digits at the head of [s]: its value with [acc]
    as the digits read so far, how many digits were read, and the rest. *)
Fixpoint take_digits (s : string) (acc : Z) (count : nat) : Z * nat * string :=
  match s with
  | String c r =>
      match digit_of c with
      | Some d => take_digits r (10 * acc + d)%Z (S count)
      | None => (acc, count, s)
      end
  | EmptyString => (acc, count, s)
  end.

(** An optional sign: [true] for a leading minus. *)
Definition take_sign (s : string) : bool * string :=
  match s with
  | String "-" r => (true, r)
  | String "+" r => (false, r)
  | _ => (false, s)
  end.

(** [parseInt(s, 10)]: leading white space, an optional sign, then the
    longest run of decimal digits; NaN when there is none. *)
Definition parseInt (s : string) : jsint :=
  let '(neg, r) := take_sign (skip_spaces s) in
  let '(v, n, _) := take_digits r 0 0 in
  match n with
  | O => INaN
  | _ => IInt (if neg then - v else v)%Z
  end.

(** The exponent part of a decimal literal, 0 when there is none. *)
Definition take_exponent (s : string) : Z :=
  match s with
  | String c r =>
      if (Ascii.eqb c "e" || Ascii.eqb c "E")%bool then
        let '(neg, r') := take_sign r in
        let '(v, n, _) := take_digits r' 0 0 in
        match n with
        | O => 0%Z
        | _ => if neg then (- v)%Z else v
        end
      else 0%Z
  | EmptyString => 0%Z
  end.

(** [m * 10^e] as a rational. *)
Definition scale10 (m e : Z) : Q :=
  if (0 <=? e)%Z then inject_Z (m * 10 ^ e)
  else Qred (Qmake m (Z.to_pos (10 ^ (- e)))).

(** [parseFloat(s)]: leading white space, then the longest prefix that is a
    decimal literal (sign, [Infinity], digits with an optional fraction and
    exponent); NaN when there is none. *)
Definition parseFloat (s : string) : jsnum :=
  let '(neg, r) := take_sign (skip_spaces s) in
  if String.prefix "Infinity" r then (if neg then JNegInf else JPosInf)
  else
    let '(ip, ni, r1) := take_digits r 0 0 in
    let '(m, nf, r2) :=
      match r1 with
      | String "." r' =>
          let '(m', nf', r'') := take_digits r' ip 0 in
          match ni, nf' with
          | O, O => (ip, O, r1)
          | _, _ => (m', nf', r'')
          end
      | _ => (ip, O, r1)
      end in
    match ni, nf with
    | O, O => JNaN
    | _, _ =>
        let v := scale10 m (take_exponent r2 - Z.of_nat nf) in
        JFin (if neg then - v else v)
    end.

Definition string_of_Z (z : Z) : string := NilZero.string_of_int (Z.to_int z).

(** [x.toFixed(1)] on a finite value: the nearest multiple of one tenth, the
    larger one on a tie, after the sign has been set aside. *)
Definition toFixed1 (x : Q) : string :=
  let neg := Qlt_bool x 0 in
  let a := if neg then - x else x in
  let n := Qfloor (a * 10 + (1 # 2))%Q in
  (if neg then "-" else "") ++
  string_of_Z (n / 10)%Z ++ "." ++ string_of_Z (n mod 10)%Z.

(** [formatNumber] of both source files. *)
Definition formatNumber (num : jsnum) : string :=
  if is_integral num then
    match num with
    | JFin x => string_of_Z (Qfloor x)
    | _ => "NaN"
    end
  else
    match num with
    | JNaN => "NaN"
    | JPosInf => "Infinity"
    | JNegInf => "-Infinity"
    | JFin x => toFixed1 x
    end.

Fixpoint rev_string (s acc : string) : string :=
  match s with
  | String c r => rev_string r (String c acc)
  | EmptyString => acc
  end.

(** [s.trim()]. *)
Definition trim (s : string) : string :=
  let s1 := skip_spaces s in
  rev_string (skip_spaces (rev_string s1 "")) "".

End Str.
Export Str.

(** ** The layout computation ([src/App.tsx]) *)

Module App.

Local Open Scope string_scope.

Inductive Mode : Type := uniform | desired.

(** One entry of [visualObjects]. *)
Record VisualObject : Type := mkObject {
  start : jsnum;
  width : jsnum
}.

(** [VisualData] of [src/Visualization.tsx]; an absent optional field is
    [None]. *)
Record VisualData : Type := mkVisualData {
  wallWidth : jsnum;
  objects : list VisualObject;
  mode : Mode;
  gapSize : option jsnum;
  sideGap : option jsnum;
  innerGap : option jsnum
}.

(** The seven ways a request is refused, in the order of the checks. *)
Inductive ValidationError : Type :=
| InvalidInput
| NonPositiveWall
| NonPositiveObject
| TooFewObjects
| NegativeSpacing
| ObjectsExceedWall
| SpacingExceedsWall.

(** The text passed to [setError] at each refusal. *)
Definition message (e : ValidationError) : string :=
  match e with
  | InvalidInput => "Tutti i campi numerici devono essere validi."
  | NonPositiveWall => "La larghezza del muro deve essere maggiore di zero."
  | NonPositiveObject =>
      "La larghezza dell'oggetto deve essere maggiore di zero."
  | TooFewObjects => "Il numero di oggetti deve essere almeno 1."
  | NegativeSpacing => "La spaziatura desiderata non può essere negativa."
  | ObjectsExceedWall =>
      "La larghezza totale degli oggetti non può superare la larghezza del muro."
  | SpacingExceedsWall =>
      "La larghezza totale degli oggetti e degli spazi desiderati supera la larghezza del muro."
  end.

(** What the body of [calculatePositions] hands to the setters: an error, or
    the report text (before [trim]) with the data of the diagram. *)
Inductive Outcome : Type :=
| Failure (e : ValidationError)
| Success (resultHtml : string) (v : VisualData).

Definition red (s : string) : string :=
  "<span class=" ++ dquote ++ "text-red-500 font-bold" ++ dquote ++ ">"
  ++ s ++ " cm</span>".

(** The four lines reported for the object of index [i]. *)
Definition object_lines (i : Z) (startPos objCenter objEnd : jsnum) : string :=
  "Oggetto " ++ string_of_Z (i + 1) ++ ":" ++ nl
  ++ "  Inizio a: " ++ formatNumber startPos ++ " cm" ++ nl
  ++ "  Centro a: " ++ red (formatNumber objCenter) ++ nl
  ++ "  Fine a:   " ++ formatNumber objEnd ++ " cm" ++ nl.

(** The placement loop [for (let i = 0; i < numObj; i++)], shared by the two
    policies, which differ in [gap] only ([space] or [gapSize]).  [todo] is
    the number of iterations left, [i] the loop index; the accumulators are
    [currentPos], [visualObjects] and [resultHtml]. *)
Fixpoint place (todo : nat) (i : Z) (objW gap currentPos : jsnum)
    (visualObjects : list VisualObject) (resultHtml : string)
    : list VisualObject * string :=
  match todo with
  | O => (visualObjects, resultHtml)
  | S todo' =>
      let startPos := currentPos in
      let objCenter := jadd startPos (jdiv objW (JFin 2)) in
      let objEnd := jadd startPos objW in
      place todo' (i + 1)%Z objW gap (jadd objEnd gap)
        (visualObjects ++ [mkObject startPos objW])
        (resultHtml ++ object_lines i startPos objCenter objEnd ++ nl)
  end.

(** Iterations of the loop: [i] runs over [0 .. numObj - 1]. *)
Definition iterations (numObj : jsint) : nat :=
  match numObj with
  | INaN => O
  | IInt z => Z.to_nat z
  end.

(** [space] of the source: [parseFloat(desiredSpacing) || 0]. *)
Definition spacing_of (parsedSpacing : jsnum) : jsnum :=
  jor parsedSpacing (JFin 0).

(** Lines 34 to 145 of [calculatePositions], on the four parsed numbers:
    [wallW], [numObj], [objW] and the parsed spacing before [|| 0]. *)
Definition computeLayout (wallW : jsnum) (numObj : jsint) (objW : jsnum)
    (parsedSpacing : jsnum) : Outcome :=
  let space := spacing_of parsedSpacing in
  if (isNaN wallW || isNaN (num_of numObj) || isNaN objW)%bool then
    Failure InvalidInput
  else if jle wallW (JFin 0) then Failure NonPositiveWall
  else if jle objW (JFin 0) then Failure NonPositiveObject
  else if jlt (num_of numObj) (JFin 1) then Failure TooFewObjects
  else if jlt space (JFin 0) then Failure NegativeSpacing
  else
    let totalObjectsWidth := jmul (num_of numObj) objW in
    if jgt totalObjectsWidth wallW then Failure ObjectsExceedWall
    else if (jgt space (JFin 0) && jgt (num_of numObj) (JFin 1))%bool then
      let totalInnerGapsWidth := jmul (jsub (num_of numObj) (JFin 1)) space in
      let totalOccupiedWidth := jadd totalObjectsWidth totalInnerGapsWidth in
      if jgt totalOccupiedWidth wallW then Failure SpacingExceedsWall
      else
        let sideGap := jdiv (jsub wallW totalOccupiedWidth) (JFin 2) in
        let resultHtml :=
          "Spazio laterale (muro-oggetto):" ++ nl
          ++ red (formatNumber sideGap) ++ nl
          ++ "Spazio tra oggetti (impostato):" ++ nl
          ++ red (formatNumber space) ++ nl ++ nl in
        let '(visualObjects, resultHtml) :=
          place (iterations numObj) 0 objW space sideGap [] resultHtml in
        Success resultHtml
          (mkVisualData wallW visualObjects desired None (Some sideGap)
             (Some space))
    else if jeqb (num_of numObj) (JFin 1) then
      let startPos := jdiv (jsub wallW objW) (JFin 2) in
      let objCenter := jadd startPos (jdiv objW (JFin 2)) in
      let objEnd := jadd startPos objW in
      let visualObjects := [mkObject startPos objW] in
      let resultHtml := object_lines 0 startPos objCenter objEnd in
      let sideGapSingle := jdiv (jsub wallW objW) (JFin 2) in
      Success resultHtml
        (mkVisualData wallW visualObjects desired None (Some sideGapSingle)
           (Some (JFin 0)))
    else
      let totalEmptySpace := jsub wallW totalObjectsWidth in
      let numGaps := jadd (num_of numObj) (JFin 1) in
      let gapSize := jdiv totalEmptySpace numGaps in
      let resultHtml :=
        "Dimensione spazio tra oggetti (e tra oggetto e muro):" ++ nl
        ++ red (formatNumber gapSize) ++ nl ++ nl in
      let '(visualObjects, resultHtml) :=
        place (iterations numObj) 0 objW gapSize gapSize [] resultHtml in
      Success resultHtml
        (mkVisualData wallW visualObjects uniform (Some gapSize) None None).

(** The state of the [App] component: the four input fields and the three
    outputs.  The field [wallWidth] of the source is [wallWidthField] here,
    [wallWidth] being also a field of [VisualData]. *)
Record AppState : Type := mkApp {
  wallWidthField : string;
  numObjects : string;
  objectWidth : string;
  desiredSpacing : string;
  results : option string;
  visualData : option VisualData;
  error : option string
}.

Definition setError (e : option string) (s : AppState) : AppState :=
  mkApp (wallWidthField s) (numObjects s) (objectWidth s) (desiredSpacing s)
    (results s) (visualData s) e.

Definition setResults (r : option string) (s : AppState) : AppState :=
  mkApp (wallWidthField s) (numObjects s) (objectWidth s) (desiredSpacing s)
    r (visualData s) (error s).

Definition setVisualData (v : option VisualData) (s : AppState) : AppState :=
  mkApp (wallWidthField s) (numObjects s) (objectWidth s) (desiredSpacing s)
    (results s) v (error s).

(** The initial state of the component. *)
Definition initial : AppState :=
  mkApp "300" "3" "10.0" "" None None None.

(** [calculatePositions]: clear the three outputs, parse the fields, then
    either one [setError] and return, or [setVisualData] and [setResults]. *)
Definition calculatePositions (s : AppState) : AppState :=
  let s := setError None s in
  let s := setResults None s in
  let s := setVisualData None s in
  let wallW := parseFloat (wallWidthField s) in
  let numObj := parseInt (numObjects s) in
  let objW := parseFloat (objectWidth s) in
  match computeLayout wallW numObj objW (parseFloat (desiredSpacing s)) with
  | Failure e => setError (Some (message e)) s
  | Success resultHtml v =>
      setResults (Some (trim resultHtml)) (setVisualData (Some v) s)
  end.


(** The three outputs of the component. *)
Definition outputs (s : AppState)
    : option string * option string * option VisualData :=
  (error s, results s, visualData s).

(** The outcome of the request held by the fields of [s]. *)
Definition outcome_of (s : AppState) : Outcome :=
  computeLayout (parseFloat (wallWidthField s)) (parseInt (numObjects s))
    (parseFloat (objectWidth s)) (parseFloat (desiredSpacing s)).

(** *** Reading a layout back *)

Definition obj_end (o : VisualObject) : jsnum := jadd (start o) (width o).

End App.
Export App.

(** ** The view transform ([src/Visualization.tsx])

    The state of the component is finite: the coordinates of the events are
    finite numbers, the divisors are the scale (at least 1 in every reachable
    state) and a pinch distance guarded to be positive.  It is kept in exact
    rationals; it meets the layout data, which is in [jsnum], when the
    diagram is drawn. *)

Module Visualization.

Local Open Scope string_scope.

Record Transform : Type := mkTransform {
  scale : Q;
  translateX : Q;
  translateY : Q
}.

Record Point : Type := mkPoint {
  clientX : Q;
  clientY : Q
}.

(** [svgRect]: the part of [getBoundingClientRect()] that is read. *)
Record Rect : Type := mkRect {
  rect_left : Q;
  rect_top : Q
}.

(** State and refs of the component. *)
Record ViewState : Type := mkView {
  containerWidth : Q;
  transform : Transform;
  isPanning : bool;
  startPanPoint : Point;
  startTransform : Transform;
  initialPinchDistance : Q
}.

Definition identity : Transform := mkTransform 1 0 0.

Definition initialView : ViewState :=
  mkView 0 identity false (mkPoint 0 0) identity 0.

Definition setTransform (t : Transform) (s : ViewState) : ViewState :=
  mkView (containerWidth s) t (isPanning s) (startPanPoint s)
    (startTransform s) (initialPinchDistance s).

Definition setIsPanning (b : bool) (s : ViewState) : ViewState :=
  mkView (containerWidth s) (transform s) b (startPanPoint s)
    (startTransform s) (initialPinchDistance s).

Definition setContainerWidth (w : Q) (s : ViewState) : ViewState :=
  mkView w (transform s) (isPanning s) (startPanPoint s)
    (startTransform s) (initialPinchDistance s).

Definition setStartPanPoint (p : Point) (s : ViewState) : ViewState :=
  mkView (containerWidth s) (transform s) (isPanning s) p
    (startTransform s) (initialPinchDistance s).

Definition setStartTransform (t : Transform) (s : ViewState) : ViewState :=
  mkView (containerWidth s) (transform s) (isPanning s) (startPanPoint s)
    t (initialPinchDistance s).

Definition setInitialPinchDistance (d : Q) (s : ViewState) : ViewState :=
  mkView (containerWidth s) (transform s) (isPanning s) (startPanPoint s)
    (startTransform s) d.

(** [Math.max] on two finite numbers. *)
Definition Math_max (a b : Q) : Q := if Qlt_bool a b then b else a.

(** The zoom step per unit of wheel delta. *)
Definition wheel_factor : Q := 0.001.

(** The width below which a label is dropped, in pixels at scale 1. *)
Definition label_threshold : Q := 25.

Definition resetView (s : ViewState) : ViewState := setTransform identity s.

(** The callback of the [ResizeObserver]; [entries] holds the content widths
    of the observed entries. *)
Definition handleResize (entries : list Q) (s : ViewState) : ViewState :=
  match entries with
  | width :: _ =>
      if Qlt_bool 0 width then resetView (setContainerWidth width s) else s
  | [] => s
  end.

Definition handleWheel (deltaY : Q) (cursor : Point) (svgRect : Rect)
    (s : ViewState) : ViewState :=
  let scaleAmount := - deltaY * wheel_factor in
  let mouseX := clientX cursor - rect_left svgRect in
  let mouseY := clientY cursor - rect_top svgRect in
  let prev := transform s in
  let newScale := Math_max 1 (scale prev + scaleAmount) in
  let newTranslateX :=
    mouseX - (mouseX - translateX prev) * (newScale / scale prev) in
  let newTranslateY :=
    mouseY - (mouseY - translateY prev) * (newScale / scale prev) in
  setTransform (mkTransform newScale newTranslateX newTranslateY) s.

Definition handleMouseDown (p : Point) (s : ViewState) : ViewState :=
  let s := setIsPanning true s in
  let s := setStartPanPoint p s in
  setStartTransform (transform s) s.

(** The body shared by the pan branches of [handleMouseMove] and
    [handleTouchMove]. *)
Definition pan_to (p : Point) (s : ViewState) : ViewState :=
  let dx := clientX p - clientX (startPanPoint s) in
  let dy := clientY p - clientY (startPanPoint s) in
  setTransform
    (mkTransform (scale (transform s))
       (translateX (startTransform s) + dx)
       (translateY (startTransform s) + dy)) s.

Definition handleMouseMove (p : Point) (s : ViewState) : ViewState :=
  if negb (isPanning s) then s else pan_to p s.

Definition handleMouseUpOrLeave (s : ViewState) : ViewState :=
  if isPanning s then setIsPanning false s else s.

Definition handleTouchEnd (s : ViewState) : ViewState :=
  setInitialPinchDistance 0 (setIsPanning false s).

Section Pinch.

(** [Math.sqrt], which has no rational counterpart, is left open. *)
Variable Math_sqrt : Q -> Q.

Definition distance (a b : Point) : Q :=
  let dx := clientX a - clientX b in
  let dy := clientY a - clientY b in
  Math_sqrt (dx * dx + dy * dy).

Definition handleTouchStart (touches : list Point) (s : ViewState)
    : ViewState :=
  match touches with
  | [t0] =>
      let s := setIsPanning true s in
      let s := setStartPanPoint t0 s in
      setStartTransform (transform s) s
  | [t0; t1] =>
      let s := setIsPanning false s in
      let s := setInitialPinchDistance (distance t0 t1) s in
      setStartTransform (transform s) s
  | _ => s
  end.

Definition pinch_to (t0 t1 : Point) (svgRect : Rect) (s : ViewState)
    : ViewState :=
  let currentPinchDistance := distance t0 t1 in
  let scaleMultiplier := currentPinchDistance / initialPinchDistance s in
  let newScale := Math_max 1 (scale (startTransform s) * scaleMultiplier) in
  let midX := (clientX t0 + clientX t1) / 2 - rect_left svgRect in
  let midY := (clientY t0 + clientY t1) / 2 - rect_top svgRect in
  let newTranslateX :=
    midX - (midX - translateX (startTransform s))
           * (newScale / scale (startTransform s)) in
  let newTranslateY :=
    midY - (midY - translateY (startTransform s))
           * (newScale / scale (startTransform s)) in
  setTransform (mkTransform newScale newTranslateX newTranslateY) s.

Definition handleTouchMove (touches : list Point) (svgRect : Rect)
    (s : ViewState) : ViewState :=
  match touches with
  | [t0] => if isPanning s then pan_to t0 s else s
  | [t0; t1] =>
      if Qlt_bool 0 (initialPinchDistance s) then pinch_to t0 t1 svgRect s
      else s
  | _ => s
  end.

(** What can happen to the component. *)
Inductive Event : Type :=
| Resize (entries : list Q)
| ResetClick
| Wheel (deltaY : Q) (cursor : Point) (svgRect : Rect)
| MouseDown (p : Point)
| MouseMove (p : Point)
| MouseUp
| MouseLeave
| TouchStart (touches : list Point)
| TouchMove (touches : list Point) (svgRect : Rect)
| TouchEnd
| TouchCancel.

(** One event, handled to completion. *)
Definition step (s : ViewState) (e : Event) : ViewState :=
  match e with
  | Resize entries => handleResize entries s
  | ResetClick => resetView s
  | Wheel deltaY cursor svgRect => handleWheel deltaY cursor svgRect s
  | MouseDown p => handleMouseDown p s
  | MouseMove p => handleMouseMove p s
  | MouseUp | MouseLeave => handleMouseUpOrLeave s
  | TouchStart touches => handleTouchStart touches s
  | TouchMove touches svgRect => handleTouchMove touches svgRect s
  | TouchEnd | TouchCancel => handleTouchEnd s
  end.

(** A sequence of events from a state, oldest first. *)
Definition run (s : ViewState) (events : list Event) : ViewState :=
  fold_left step events s.

End Pinch.

(** A stand-in for [Math.sqrt], exact on the squares of integers. *)
Definition integer_sqrt (q : Q) : Q := inject_Z (Z.sqrt (Qfloor q)).

(** *** Drawing the dimension labels *)

(** A [<text>] element: its [x], its [y] and its content. *)
Record Label : Type := mkLabel {
  label_x : jsnum;
  label_y : jsnum;
  label_text : string
}.

(** The component [DimensionLabel]: [None] is the [null] it returns when the
    label is hidden. *)
Definition DimensionLabel (t : Transform) (startX endX y : jsnum)
    (label : string) : option Label :=
  let width := jsub endX startX in
  let midX := jadd startX (jdiv width (JFin 2)) in
  let showLabel := jgt width (jdiv (JFin label_threshold) (JFin (scale t))) in
  if negb showLabel then None else Some (mkLabel midX y label).


Definition topMargin : jsnum := JFin 50.
Definition wallHeight : jsnum := JFin 50.
Definition dimTextY : jsnum := jadd (jadd topMargin wallHeight) (JFin 30).



End Visualization.
Export Visualization.

(** ** Finite layouts

    On finite inputs every number of a layout is finite; the list below is
    the rational content of what [place] pushes. *)

Module Finite.

(** The objects pushed by [todo] iterations from the position [c]. *)
Fixpoint qobjs (todo : nat) (c w g : Q) : list VisualObject :=
  match todo with
  | O => []
  | S todo' => mkObject (JFin c) (JFin w) :: qobjs todo' (c + w + g) w g
  end.

Definition of_nat (n : nat) : Q := inject_Z (Z.of_nat n).

(** The policy that produced a layout, with the fields it fills in:
    [c] is the position of the first object, [g] the gap between objects. *)
Inductive policy (z : Z) (c g : Q) (space : jsnum) (v : VisualData) : Prop :=
| policy_desired :
    (1 < z)%Z -> 0 < g -> space = JFin g ->
    mode v = desired -> gapSize v = None ->
    sideGap v = Some (JFin c) -> innerGap v = Some (JFin g) ->
    policy z c g space v
| policy_single :
    z = 1%Z ->
    mode v = desired -> gapSize v = None ->
    sideGap v = Some (JFin c) -> innerGap v = Some (JFin 0) ->
    policy z c g space v
| policy_uniform :
    (1 < z)%Z -> (exists s, space = JFin s /\ s == 0) -> c = g ->
    mode v = uniform -> gapSize v = Some (JFin g) ->
    sideGap v = None -> innerGap v = None ->
    policy z c g space v.

End Finite.
Export Finite.

(** ** Concrete requests and views used to exercise the claims *)

Module Examples.

Local Open Scope string_scope.

(** A wall length that is not finite. *)
Definition infinite_wall_request : AppState :=
  mkApp "Infinity" "3" "10" "" None None None.


(** Objects wider than the wall, with a report left by an earlier request. *)
Definition stale_request : AppState :=
  mkApp "100" "3" "40" "" (Some "Oggetto 1:") None None.

(** One notch of the wheel at the cursor (120, 40) of a diagram at (20, 10). *)
Definition wheel_example : Transform :=
  transform (handleWheel (-1000) (mkPoint 120 40) (mkRect 20 10) initialView).

(** Two fingers moving apart from a distance of 5 to a distance of 10. *)
Definition pinch_example : list Event :=
  [TouchStart [mkPoint 0 0; mkPoint 3 4];
   TouchMove [mkPoint 0 0; mkPoint 6 8] (mkRect 0 0)].

(** A container 300 wide, then one wheel event that doubles the scale. *)
Definition zoomed_view : ViewState :=
  run integer_sqrt initialView
    [Resize [300]; Wheel (-1000) (mkPoint 0 0) (mkRect 0 0)].

(** The view in the middle of that pinch, the fingers still down. *)
Definition pinched_view : ViewState :=
  run integer_sqrt initialView pinch_example.

(** The fingers move further apart, to a distance of 15, then the mouse
    moves. *)
Definition late_moves : list Event :=
  [TouchMove [mkPoint 0 0; mkPoint 9 12] (mkRect 0 0);
   MouseMove (mkPoint 50 50)].


End Examples.
Export Examples.

(** ** What the two components draw *)

Module Render.

Local Open Scope string_scope.

(** ToBoolean on [string | null]: [null] and the empty string are falsy. *)
Definition truthy_text (o : option string) : bool :=
  match o with
  | Some (String _ _) => true
  | _ => false
  end.

(** The four conditional blocks of the render of [App]: the diagram, the
    error box, the report and the line shown while there is neither. *)
Record Panels : Type := mkPanels {
  visualization_panel : option VisualData;
  error_panel : option string;
  results_panel : option string;
  placeholder_panel : bool
}.

Definition render (s : AppState) : Panels :=
  mkPanels
    (visualData s)
    (if truthy_text (error s) then error s else None)
    (if truthy_text (results s) then results s else None)
    (negb (truthy_text (error s)) && negb (truthy_text (results s))).


End Render.
Export Render.

(** ** The same code on binary64

    JavaScript numbers are IEEE 754 doubles, which Rocq has as primitive
    floats: [+], [-], [*], [/] and the square root are correctly rounded, and
    the comparisons treat NaN as JavaScript does.  This module evaluates the
    arithmetic of the two components on doubles, to show at concrete inputs
    what rounding does to a layout and to a zoom.  The statements proved for
    all inputs are made on the exact reading above and keep to what rounding
    does not change: equalities between the expressions the code computes, and
    order facts that a monotone rounding preserves. *)

Module Binary64.

Import PrimFloat.

Local Open Scope string_scope.

(** The double nearest to an integer. *)
Definition of_Z (z : Z) : float :=
  FloatOps.SF2Prim (SpecFloat.binary_normalize 53 1024 z 0 false).

(** The double nearest to a rational, ties to even: the quotient is taken to
    at least 64 bits and one more bit records whether anything is left. *)
Definition of_Q (q : Q) : float :=
  let a := Z.abs (Qnum q) in
  let d := Zpos (Qden q) in
  let s := Z.max 0 (64 + Z.log2 d - Z.log2 a) in
  let n := (a * 2 ^ s / d)%Z in
  let sticky := if ((a * 2 ^ s) mod d =? 0)%Z then 0%Z else 1%Z in
  let m := (2 * n + sticky)%Z in
  FloatOps.SF2Prim
    (SpecFloat.binary_normalize 53 1024
       (if (Qnum q <? 0)%Z then (- m)%Z else m) (- s - 1) false).

(** The double of a number of the exact reading. *)
Definition of_jsnum (x : jsnum) : float :=
  match x with
  | JNaN => nan
  | JPosInf => infinity
  | JNegInf => neg_infinity
  | JFin q => of_Q q
  end.

(** The exact value of a double. *)
Definition exact (x : float) : jsnum :=
  match FloatOps.Prim2SF x with
  | SpecFloat.S754_zero _ => JFin 0
  | SpecFloat.S754_infinity false => JPosInf
  | SpecFloat.S754_infinity true => JNegInf
  | SpecFloat.S754_nan => JNaN
  | SpecFloat.S754_finite sign m e =>
      let v := if (0 <=? e)%Z then inject_Z (Zpos m * 2 ^ e)
               else Qmake (Zpos m) (Z.to_pos (2 ^ (- e))) in
      JFin (if sign then Qopp v else v)
  end.

(** [parseFloat]: the double nearest to the decimal value read. *)
Definition parseFloat (s : string) : float := of_jsnum (Str.parseFloat s).

Definition num_of (n : jsint) : float :=
  match n with
  | INaN => nan
  | IInt z => of_Z z
  end.

Definition isNaN (x : float) : bool := is_nan x.

(** ToBoolean: NaN and the two zeros are falsy. *)
Definition truthy (x : float) : bool := negb (is_nan x || eqb x zero).

Definition jor (a b : float) : float := if truthy a then a else b.

Definition formatNumber (x : float) : string := Str.formatNumber (exact x).

Record VisualObject : Type := mkObject {
  start : float;
  width : float
}.

Record VisualData : Type := mkVisualData {
  wallWidth : float;
  objects : list VisualObject;
  mode : Mode;
  gapSize : option float;
  sideGap : option float;
  innerGap : option float
}.

Inductive Outcome : Type :=
| Failure (e : ValidationError)
| Success (resultHtml : string) (v : VisualData).

Definition object_lines (i : Z) (startPos objCenter objEnd : float) : string :=
  "Oggetto " ++ string_of_Z (i + 1) ++ ":" ++ nl
  ++ "  Inizio a: " ++ formatNumber startPos ++ " cm" ++ nl
  ++ "  Centro a: " ++ red (formatNumber objCenter) ++ nl
  ++ "  Fine a:   " ++ formatNumber objEnd ++ " cm" ++ nl.

(** The placement loop; [todo] and [i] as in [App.place]. *)
Fixpoint place (todo : nat) (i : Z) (objW gap currentPos : float)
    (visualObjects : list VisualObject) (resultHtml : string)
    : list VisualObject * string :=
  match todo with
  | O => (visualObjects, resultHtml)
  | S todo' =>
      let startPos := currentPos in
      let objCenter := add startPos (div objW two) in
      let objEnd := add startPos objW in
      place todo' (i + 1)%Z objW gap (add objEnd gap)
        (visualObjects ++ [mkObject startPos objW])
        (resultHtml ++ object_lines i startPos objCenter objEnd ++ nl)
  end.

(** Lines 34 to 145 of [calculatePositions] on doubles; the number of
    iterations is the count itself, which is exact below [2^53]. *)
Definition computeLayout (wallW : float) (numObj : jsint) (objW : float)
    (parsedSpacing : float) : Outcome :=
  let space := jor parsedSpacing zero in
  let n := num_of numObj in
  if (isNaN wallW || isNaN n || isNaN objW)%bool then Failure InvalidInput
  else if leb wallW zero then Failure NonPositiveWall
  else if leb objW zero then Failure NonPositiveObject
  else if ltb n one then Failure TooFewObjects
  else if ltb space zero then Failure NegativeSpacing
  else
    let totalObjectsWidth := mul n objW in
    if ltb wallW totalObjectsWidth then Failure ObjectsExceedWall
    else if (ltb zero space && ltb one n)%bool then
      let totalInnerGapsWidth := mul (sub n one) space in
      let totalOccupiedWidth := add totalObjectsWidth totalInnerGapsWidth in
      if ltb wallW totalOccupiedWidth then Failure SpacingExceedsWall
      else
        let sideGap := div (sub wallW totalOccupiedWidth) two in
        let resultHtml :=
          "Spazio laterale (muro-oggetto):" ++ nl
          ++ red (formatNumber sideGap) ++ nl
          ++ "Spazio tra oggetti (impostato):" ++ nl
          ++ red (formatNumber space) ++ nl ++ nl in
        let '(visualObjects, resultHtml) :=
          place (iterations numObj) 0 objW space sideGap [] resultHtml in
        Success resultHtml
          (mkVisualData wallW visualObjects desired None (Some sideGap)
             (Some space))
    else if eqb n one then
      let startPos := div (sub wallW objW) two in
      let objCenter := add startPos (div objW two) in
      let objEnd := add startPos objW in
      let visualObjects := [mkObject startPos objW] in
      let resultHtml := object_lines 0 startPos objCenter objEnd in
      let sideGapSingle := div (sub wallW objW) two in
      Success resultHtml
        (mkVisualData wallW visualObjects desired None (Some sideGapSingle)
           (Some zero))
    else
      let totalEmptySpace := sub wallW totalObjectsWidth in
      let numGaps := add n one in
      let gapSize := div totalEmptySpace numGaps in
      let resultHtml :=
        "Dimensione spazio tra oggetti (e tra oggetto e muro):" ++ nl
        ++ red (formatNumber gapSize) ++ nl ++ nl in
      let '(visualObjects, resultHtml) :=
        place (iterations numObj) 0 objW gapSize gapSize [] resultHtml in
      Success resultHtml
        (mkVisualData wallW visualObjects uniform (Some gapSize) None None).

(** The objects pushed by [todo] iterations of the loop from the position
    [c]: each next position is the rounded end of the object plus the gap,
    rounded again. *)
Fixpoint steps (todo : nat) (c w g : float) : list VisualObject :=
  match todo with
  | O => []
  | S todo' => mkObject c w :: steps todo' (add (add c w) g) w g
  end.

(** The request held by four texts. *)
Definition layout_of (wall count width spacing : string) : Outcome :=
  computeLayout (parseFloat wall) (Str.parseInt count) (parseFloat width)
    (parseFloat spacing).

Definition data_of (o : Outcome) : option VisualData :=
  match o with
  | Success _ v => Some v
  | Failure _ => None
  end.

Definition obj_end (o : VisualObject) : float := add (start o) (width o).

Fixpoint gaps_from (from wall : float) (os : list VisualObject) : list float :=
  match os with
  | [] => [sub wall from]
  | o :: os' => sub (start o) from :: gaps_from (obj_end o) wall os'
  end.

(** The gaps of a layout, left to right, each a rounded difference. *)
Definition gaps (v : VisualData) : list float :=
  gaps_from zero (wallWidth v) (objects v).


(** *** The wheel *)

Record Transform : Type := mkTransform {
  scale : float;
  translateX : float;
  translateY : float
}.

(** [Math.max] of two numbers: NaN when either is. *)
Definition Math_max (a b : float) : float :=
  if (is_nan a || is_nan b)%bool then nan
  else if ltb a b then b else a.

Definition identity : Transform := mkTransform one zero zero.

Definition wheel_factor : float := of_Q 0.001.

(** The update of [handleWheel], with the cursor already made relative to
    the diagram as [mouseX] and [mouseY]. *)
Definition handleWheel (deltaY mouseX mouseY : float) (prev : Transform)
    : Transform :=
  let scaleAmount := mul (opp deltaY) wheel_factor in
  let newScale := Math_max one (add (scale prev) scaleAmount) in
  let newTranslateX :=
    sub mouseX (mul (sub mouseX (translateX prev))
                    (div newScale (scale prev))) in
  let newTranslateY :=
    sub mouseY (mul (sub mouseY (translateY prev))
                    (div newScale (scale prev))) in
  mkTransform newScale newTranslateX newTranslateY.

(** The inverse of the transform on one axis: the diagram coordinate shown
    at the screen coordinate [p]. *)
Definition to_model (p translate scale : float) : float :=
  div (sub p translate) scale.

End Binary64.

(** ** Relations used to state the further properties *)

Module Relations.

(** Numeric equality of two transforms. *)
Definition same_transform (a b : Transform) : Prop :=
  scale a == scale b /\ translateX a == translateX b
  /\ translateY a == translateY b.

(** A press followed by moves, with the handlers of [src/Visualization.tsx]. *)
Definition drag (p0 : Point) (moves : list Point) (s : ViewState)
    : ViewState :=
  fold_left (fun s p => handleMouseMove p s) moves (handleMouseDown p0 s).

(** The events that move a pointer or a finger. *)
Definition is_move (e : Event) : bool :=
  match e with
  | MouseMove _ | TouchMove _ _ => true
  | _ => false
  end.

(** Whether a text has a character that [trim] keeps. *)
Fixpoint has_ink (s : string) : bool :=
  match s with
  | String c r => (negb (is_space c) || has_ink r)%bool
  | EmptyString => false
  end.

(** The checks of [calculatePositions] from top to bottom: the error each one
    raises and the test it makes, on the numbers the code computes. *)
Definition checks (wallW : jsnum) (numObj : jsint) (objW sp : jsnum)
    : list (ValidationError * bool) :=
  let n := num_of numObj in
  let space := spacing_of sp in
  let totalObjectsWidth := jmul n objW in
  let totalOccupiedWidth :=
    jadd totalObjectsWidth (jmul (jsub n (JFin 1)) space) in
  [(InvalidInput, (isNaN wallW || isNaN n || isNaN objW)%bool);
   (NonPositiveWall, jle wallW (JFin 0));
   (NonPositiveObject, jle objW (JFin 0));
   (TooFewObjects, jlt n (JFin 1));
   (NegativeSpacing, jlt space (JFin 0));
   (ObjectsExceedWall, jgt totalObjectsWidth wallW);
   (SpacingExceedsWall,
    (jgt space (JFin 0) && jgt n (JFin 1)
     && jgt totalOccupiedWidth wallW)%bool)].

(** The error of the first check that fails, if any. *)
Definition first_failing (l : list (ValidationError * bool))
    : option ValidationError :=
  option_map fst (find snd l).

End Relations.
Export Relations.

Lemma Qlt_bool_iff (a b : Q) : Qlt_bool a b = true <-> a < b.
Proof.
  unfold Qlt_bool. rewrite negb_true_iff.
  split; intro H.
  - apply Qnot_le_lt. intro Hle. apply Qle_bool_iff in Hle. congruence.
  - destruct (Qle_bool b a) eqn:E; [|reflexivity].
    apply Qle_bool_iff in E. exfalso. apply (Qlt_not_le _ _ H E).
Qed.

Lemma Qlt_bool_false (a b : Q) : Qlt_bool a b = false <-> b <= a.
Proof.
  unfold Qlt_bool. rewrite negb_false_iff. apply Qle_bool_iff.
Qed.

Lemma Qle_bool_false (a b : Q) : Qle_bool a b = false <-> b < a.
Proof.
  rewrite <- Qlt_bool_iff. unfold Qlt_bool.
  destruct (Qle_bool a b); simpl; split; congruence.
Qed.

Lemma Qeq_bool_false (a b : Q) : Qeq_bool a b = false <-> ~ a == b.
Proof.
  split; intro H.
  - intro E. apply Qeq_bool_iff in E. congruence.
  - destruct (Qeq_bool a b) eqn:E; [|reflexivity].
    apply Qeq_bool_iff in E. contradiction.
Qed.

Lemma of_nat_S (n : nat) : of_nat (S n) == of_nat n + 1.
Proof.
  unfold of_nat. rewrite Nat2Z.inj_succ. unfold Z.succ.
  rewrite inject_Z_plus. reflexivity.
Qed.


(** Turns the boolean tests of the source into facts about rationals. *)
Ltac reflect_tests :=
  repeat match goal with
  | H : (_ && _)%bool = true |- _ => apply andb_true_iff in H; destruct H
  | H : (_ || _)%bool = false |- _ => apply orb_false_iff in H; destruct H
  | H : Qle_bool _ _ = true |- _ => apply Qle_bool_iff in H
  | H : Qle_bool _ _ = false |- _ => apply Qle_bool_false in H
  | H : Qlt_bool _ _ = true |- _ => apply Qlt_bool_iff in H
  | H : Qlt_bool _ _ = false |- _ => apply Qlt_bool_false in H
  | H : Qeq_bool _ _ = true |- _ => apply Qeq_bool_iff in H
  | H : Qeq_bool _ _ = false |- _ => apply Qeq_bool_false in H
  end.

Section PlaceFinite.

Variables w g : Q.

Lemma place_finite (todo : nat) :
  forall (i : Z) (c : Q) (acc : list VisualObject) (html : string),
    fst (place todo i (JFin w) (JFin g) (JFin c) acc html)
    = acc ++ qobjs todo c w g.
Proof.
  induction todo as [|todo IH]; intros i c acc html; simpl.
  - now rewrite app_nil_r.
  - rewrite IH, <- app_assoc. reflexivity.
Qed.

Lemma qobjs_length (todo : nat) (c : Q) : List.length (qobjs todo c w g) = todo.
Proof.
  revert c. induction todo as [|todo IH]; intro c; simpl; [reflexivity|].
  now rewrite IH.
Qed.

Lemma qobjs_nth (todo : nat) :
  forall (c : Q) (i : nat) (o : VisualObject),
    nth_error (qobjs todo c w g) i = Some o ->
    exists p, start o = JFin p /\ p == c + of_nat i * (w + g)
              /\ width o = JFin w.
Proof.
  induction todo as [|todo IH]; intros c i o H.
  - destruct i; discriminate.
  - destruct i as [|i]; simpl in H.
    + injection H as <-. exists c. simpl. repeat split.
      unfold of_nat; simpl. ring.
    + destruct (IH _ _ _ H) as (p & Hs & Hp & Hw).
      exists p. repeat split; [assumption| |assumption].
      rewrite Hp, of_nat_S. ring.
Qed.

End PlaceFinite.

(** ** What a successful computation on a finite wall looks like *)

Lemma spacing_of_cases (sp : jsnum) :
  spacing_of sp = JPosInf \/ spacing_of sp = JNegInf
  \/ exists s, spacing_of sp = JFin s.
Proof.
  unfold spacing_of, jor. destruct sp; simpl; eauto.
  destruct (negb (Qeq_bool q 0)); eauto.
Qed.

Lemma inf_times_pos (x : Q) : 0 < x -> inf_times true x = JPosInf.
Proof.
  intro H. unfold inf_times.
  destruct (Qeq_bool x 0) eqn:E; reflect_tests; [lra|].
  destruct (Qlt_bool 0 x) eqn:E'; reflect_tests; [reflexivity | lra].
Qed.

Lemma jdiv_finite (x y : Q) : ~ y == 0 -> jdiv (JFin x) (JFin y) = JFin (x / y).
Proof.
  intro H. simpl. apply Qeq_bool_false in H. now rewrite H.
Qed.

(** A width that passes the checks next to a finite wall is finite. *)
Lemma objW_finite (z : Z) (objW : jsnum) (W : Q) :
  jle objW (JFin 0) = false ->
  jlt (JFin (inject_Z z)) (JFin 1) = false ->
  jgt (jmul (JFin (inject_Z z)) objW) (JFin W) = false ->
  isNaN objW = false ->
  exists w, objW = JFin w /\ 0 < w /\ inject_Z z * w <= W.
Proof.
  intros H3 H4 H6 H1. simpl in H4. reflect_tests.
  destruct objW as [| | |w]; simpl in *; try discriminate.
  - rewrite inf_times_pos in H6 by lra. discriminate.
  - unfold jgt in H6; simpl in H6. reflect_tests. eauto.
Qed.

Lemma computeLayout_success (W : Q) (numObj : jsint) (objW sp : jsnum)
    (html : string) (v : VisualData) :
  computeLayout (JFin W) numObj objW sp = Success html v ->
  exists (z : Z) (w c g : Q),
    numObj = IInt z /\ objW = JFin w
    /\ (1 <= z)%Z /\ 0 < W /\ 0 < w /\ 0 <= c /\ 0 <= g
    /\ 2 * c + inject_Z z * w + (inject_Z z - 1) * g == W
    /\ wallWidth v = JFin W
    /\ objects v = qobjs (Z.to_nat z) c w g
    /\ policy z c g (spacing_of sp) v.
Proof.
  unfold computeLayout; cbv zeta.
  destruct (isNaN (JFin W) || isNaN (num_of numObj) || isNaN objW)%bool
    eqn:E1; [discriminate|].
  destruct (jle (JFin W) (JFin 0)) eqn:E2; [discriminate|].
  destruct (jle objW (JFin 0)) eqn:E3; [discriminate|].
  destruct (jlt (num_of numObj) (JFin 1)) eqn:E4; [discriminate|].
  destruct (jlt (spacing_of sp) (JFin 0)) eqn:E5; [discriminate|].
  destruct (jgt (jmul (num_of numObj) objW) (JFin W)) eqn:E6; [discriminate|].
  destruct numObj as [|z]; [discriminate|].
  apply orb_false_iff in E1; destruct E1 as [_ E1].
  destruct (objW_finite z objW W E3 E4 E6 E1) as (w & -> & Hw & Hzw).
  clear E1 E3 E6. simpl in E2, E4. reflect_tests.
  assert (Hz : (1 <= z)%Z) by (rewrite Zle_Qle; exact E4).
  destruct (jgt (spacing_of sp) (JFin 0) && jgt (num_of (IInt z)) (JFin 1))%bool
    eqn:E7.
  - (* the spacing asked for, more than one object *)
    apply andb_true_iff in E7; destruct E7 as [E7 E7'].
    unfold jgt in E7'; simpl in E7'. reflect_tests.
    destruct (spacing_of_cases sp) as [Es|[Es|(s & Es)]]; rewrite Es in *;
      try discriminate.
    + simpl. rewrite inf_times_pos by lra. discriminate.
    + unfold jgt in E7; simpl in E7. reflect_tests.
      change (jadd (jmul (num_of (IInt z)) (JFin w))
                (jmul (jsub (num_of (IInt z)) (JFin 1)) (JFin s)))
        with (JFin (inject_Z z * w + (inject_Z z - 1) * s)).
      set (T := inject_Z z * w + (inject_Z z - 1) * s).
      change (jdiv (jsub (JFin W) (JFin T)) (JFin 2))
        with (JFin ((W - T) / 2)).
      destruct (jgt (JFin T) (JFin W)) eqn:E8; [discriminate|].
      unfold jgt in E8; simpl in E8. reflect_tests.
      destruct (place _ _ _ _ _ _ _) as [objs h] eqn:Ep.
      apply (f_equal fst) in Ep. rewrite place_finite in Ep. simpl in Ep.
      intro H; injection H as <- <-.
      assert (Hc : (W - T) / 2 * 2 == W - T) by (field).
      set (c := (W - T) / 2) in *. clearbody c.
      exists z, w, c, s. subst T objs.
      repeat split; try assumption; try lra; try reflexivity.
      apply policy_desired; try reflexivity; [|assumption].
      rewrite Zlt_Qlt. exact E7'.
  - destruct (jeqb (num_of (IInt z)) (JFin 1)) eqn:E9.
    + (* a single object, centred *)
      simpl in E9. reflect_tests.
      assert (z = 1%Z) as -> by (apply inject_Z_injective; exact E9).
      change (jdiv (jsub (JFin W) (JFin w)) (JFin 2))
        with (JFin ((W - w) / 2)).
      intro H; injection H as <- <-.
      assert (Hc : (W - w) / 2 * 2 == W - w) by (field).
      set (c := (W - w) / 2) in *. clearbody c.
      exists 1%Z, w, c, 0.
      change (inject_Z 1) with 1 in *.
      repeat split; try assumption; try lra; try reflexivity.
      apply policy_single; reflexivity.
    + (* equal gaps *)
      simpl in E9. reflect_tests.
      assert (Hz1 : (1 < z)%Z).
      { assert (z <> 1%Z) by (intros ->; apply E9; reflexivity). lia. }
      assert (Hq1 : 1 < inject_Z z).
      { change (inject_Z 1 < inject_Z z). rewrite <- Zlt_Qlt. exact Hz1. }
      assert (Hs : exists s, spacing_of sp = JFin s /\ s == 0).
      { apply andb_false_iff in E7. destruct E7 as [E7|E7].
        - destruct (spacing_of_cases sp) as [Es|[Es|(s & Es)]];
            rewrite Es in *; try discriminate.
          unfold jgt in E7; simpl in E7, E5. reflect_tests.
          exists s; split; [reflexivity | lra].
        - unfold jgt in E7; simpl in E7. reflect_tests. lra. }
      change (jdiv (jsub (JFin W) (jmul (num_of (IInt z)) (JFin w)))
                (jadd (num_of (IInt z)) (JFin 1)))
        with (jdiv (JFin (W - inject_Z z * w)) (JFin (inject_Z z + 1))).
      rewrite jdiv_finite by lra.
      destruct (place _ _ _ _ _ _ _) as [objs h] eqn:Ep.
      apply (f_equal fst) in Ep. rewrite place_finite in Ep. simpl in Ep.
      intro H; injection H as <- <-.
      assert (Hg : (W - inject_Z z * w) / (inject_Z z + 1) * (inject_Z z + 1)
                   == W - inject_Z z * w) by (field; lra).
      set (g := (W - inject_Z z * w) / (inject_Z z + 1)) in *. clearbody g.
      assert (0 <= g) by nra.
      exists z, w, g, g. subst objs.
      repeat split; try assumption; try lra; try reflexivity.
      apply policy_uniform; try reflexivity; assumption.
Qed.

(** A request that meets every condition of the checks is laid out. *)
Lemma computeLayout_accepts (W w s : Q) (z : Z) (sp : jsnum) :
  0 < W -> 0 < w -> (1 <= z)%Z -> inject_Z z * w <= W ->
  spacing_of sp = JFin s -> 0 <= s ->
  (0 < s -> (1 < z)%Z -> inject_Z z * w + (inject_Z z - 1) * s <= W) ->
  exists html v, computeLayout (JFin W) (IInt z) (JFin w) sp = Success html v.
Proof.
  intros HW Hw Hz Hzw Es Hs Hfit.
  assert (Hq : 1 <= inject_Z z).
  { change (inject_Z 1 <= inject_Z z). rewrite <- Zle_Qle. exact Hz. }
  unfold computeLayout; cbv zeta. rewrite Es.
  change (isNaN (JFin W) || isNaN (num_of (IInt z)) || isNaN (JFin w))%bool
    with false.
  destruct (jle (JFin W) (JFin 0)) eqn:E2;
    [simpl in E2; reflect_tests; lra|].
  destruct (jle (JFin w) (JFin 0)) eqn:E3;
    [simpl in E3; reflect_tests; lra|].
  destruct (jlt (num_of (IInt z)) (JFin 1)) eqn:E4;
    [simpl in E4; reflect_tests; lra|].
  destruct (jlt (JFin s) (JFin 0)) eqn:E5;
    [simpl in E5; reflect_tests; lra|].
  destruct (jgt (jmul (num_of (IInt z)) (JFin w)) (JFin W)) eqn:E6;
    [unfold jgt in E6; simpl in E6; reflect_tests; lra|].
  destruct (jgt (JFin s) (JFin 0) && jgt (num_of (IInt z)) (JFin 1))%bool
    eqn:E7.
  - apply andb_true_iff in E7; destruct E7 as [E7 E7'].
    unfold jgt in E7, E7'; simpl in E7, E7'. reflect_tests.
    assert (Hz1 : (1 < z)%Z) by (rewrite Zlt_Qlt; exact E7').
    specialize (Hfit E7 Hz1).
    destruct (jgt (jadd _ _) (JFin W)) eqn:E8;
      [unfold jgt in E8; simpl in E8; reflect_tests; lra|].
    destruct (place _ _ _ _ _ _ _) as [objs h]. eauto.
  - destruct (jeqb (num_of (IInt z)) (JFin 1)); [eauto|].
    destruct (place _ _ _ _ _ _ _) as [objs h]. eauto.
Qed.


(** ** Claims on the layout computation *)

(** A spacing that is numerically zero is the finite zero. *)
Lemma spacing_zero (sp : jsnum) :
  jeq (spacing_of sp) (JFin 0) -> exists s, spacing_of sp = JFin s /\ s == 0.
Proof.
  destruct (spacing_of sp) as [| | |s]; simpl; try contradiction. eauto.
Qed.

(** Shape of an accepted request for more than one object and no spacing. *)
Lemma uniform_shape (W w : Q) (z : Z) (sp : jsnum) (html : string)
    (v : VisualData) :
  (1 < z)%Z -> jeq (spacing_of sp) (JFin 0) ->
  computeLayout (JFin W) (IInt z) (JFin w) sp = Success html v ->
  exists g,
    mode v = uniform /\ gapSize v = Some (JFin g) /\ 0 <= g /\ 0 < w
    /\ (inject_Z z + 1) * g == W - inject_Z z * w
    /\ wallWidth v = JFin W
    /\ objects v = qobjs (Z.to_nat z) g w g.
Proof.
  intros Hz Hsp H.
  destruct (spacing_zero sp Hsp) as (s & Es & Hs).
  destruct (computeLayout_success _ _ _ _ _ _ H)
    as (z' & w' & c & g & Ez & Ew & _ & _ & Hw & _ & Hg & Hfill & Ewall & Eobjs & Hp).
  injection Ez as <-. injection Ew as <-.
  destruct Hp as [_ Hpos Eg | -> | _ _ -> Hm Hgap _ _].
  - rewrite Es in Eg. injection Eg as ->. lra.
  - lia.
  - exists g. repeat split; try assumption. lra.
Qed.

(** Shape of an accepted request for more than one object with a spacing. *)
Lemma desired_shape (W w s : Q) (z : Z) (sp : jsnum) (html : string)
    (v : VisualData) :
  (1 < z)%Z -> spacing_of sp = JFin s -> 0 < s ->
  computeLayout (JFin W) (IInt z) (JFin w) sp = Success html v ->
  exists c,
    mode v = desired /\ sideGap v = Some (JFin c)
    /\ innerGap v = Some (JFin s) /\ 0 <= c
    /\ 2 * c == W - (inject_Z z * w + (inject_Z z - 1) * s)
    /\ wallWidth v = JFin W
    /\ objects v = qobjs (Z.to_nat z) c w s.
Proof.
  intros Hz Es Hs H.
  destruct (computeLayout_success _ _ _ _ _ _ H)
    as (z' & w' & c & g & Ez & Ew & _ & _ & Hw & Hc & Hg & Hfill & Ewall & Eobjs & Hp).
  injection Ez as <-. injection Ew as <-.
  destruct Hp as [_ _ Eg Hm _ Hside Hinner | -> | _ (s' & Es' & Hs') _ _ _ _ _].
  - rewrite Es in Eg. injection Eg as <-.
    exists c. repeat split; try assumption. lra.
  - lia.
  - rewrite Es in Es'. injection Es' as <-. lra.
Qed.

(** Position of consecutive objects. *)
Lemma qobjs_consecutive (w g : Q) (todo : nat) (c : Q) (i : nat)
    (o o' : VisualObject) :
  nth_error (qobjs todo c w g) i = Some o ->
  nth_error (qobjs todo c w g) (S i) = Some o' ->
  jeq (start o') (jadd (obj_end o) (JFin g)).
Proof.
  intros H H'.
  destruct (qobjs_nth w g _ _ _ _ H) as (p & Es & Ep & Ew).
  destruct (qobjs_nth w g _ _ _ _ H') as (p' & Es' & Ep' & _).
  unfold obj_end. rewrite Es, Es', Ew. simpl.
  rewrite Ep', Ep, of_nat_S. ring.
Qed.

(** ** Claims on the view transform *)

Lemma Math_max_lower (a b : Q) : a <= Math_max a b.
Proof.
  unfold Math_max. destruct (Qlt_bool a b) eqn:E; reflect_tests; lra.
Qed.

Lemma Math_max_upper (a b : Q) : b <= Math_max a b.
Proof.
  unfold Math_max. destruct (Qlt_bool a b) eqn:E; reflect_tests; lra.
Qed.

Lemma at_least_one_nonzero (a : Q) : 1 <= a -> ~ a == 0.
Proof. intros H E. lra. Qed.

Section ScaleInvariant.

Variable Math_sqrt : Q -> Q.

Lemma step_scale (s : ViewState) (e : Event) :
  1 <= scale (transform s) ->
  1 <= scale (transform (step Math_sqrt s e)).
Proof.
  intro H.
  destruct e as [entries| |deltaY cursor svgRect|p|p| | |touches
                |touches svgRect| |]; simpl.
  - destruct entries as [|width rest]; simpl; [assumption|].
    destruct (Qlt_bool 0 width); simpl; [lra | assumption].
  - lra.
  - apply Math_max_lower.
  - assumption.
  - unfold handleMouseMove. destruct (negb (isPanning s)); simpl; assumption.
  - unfold handleMouseUpOrLeave. destruct (isPanning s); simpl; assumption.
  - unfold handleMouseUpOrLeave. destruct (isPanning s); simpl; assumption.
  - destruct touches as [|t0 [|t1 [|t2 rest]]]; simpl; assumption.
  - destruct touches as [|t0 [|t1 [|t2 rest]]]; simpl; try assumption.
    + destruct (isPanning s); simpl; assumption.
    + destruct (Qlt_bool 0 (initialPinchDistance s)); simpl; [|assumption].
      apply Math_max_lower.
  - assumption.
  - assumption.
Qed.

Lemma run_scale (events : list Event) :
  forall s, 1 <= scale (transform s) ->
            1 <= scale (transform (run Math_sqrt s events)).
Proof.
  induction events as [|e events IH]; intros s H; simpl; [assumption|].
  apply IH, step_scale, H.
Qed.

End ScaleInvariant.

(** C5. The scale is never below 1: it is 1 in the initial transform, every
    event (resize, reset, wheel, mouse and touch moves, pinch) keeps it at
    least 1, and so does every sequence of events from the initial state. *)
Theorem scale_never_below_one (Math_sqrt : Q -> Q) :
  transform initialView = mkTransform 1 0 0
  /\ (forall s e, 1 <= scale (transform s) ->
                  1 <= scale (transform (step Math_sqrt s e)))
  /\ (forall events,
        1 <= scale (transform (run Math_sqrt initialView events))).
Proof.
  split; [reflexivity|]. split.
  - apply step_scale.
  - intro events. apply run_scale. simpl. lra.
Qed.

Lemma scale_never_below_one_example :
  scale (transform (run integer_sqrt initialView pinch_example)) == 2
  /\ 1 <= scale (transform
                   (step integer_sqrt
                      (run integer_sqrt initialView pinch_example)
                      (Wheel 5000 (mkPoint 1 1) (mkRect 0 0)))).
Proof.
  split; [reflexivity|].
  apply (proj1 (proj2 (scale_never_below_one integer_sqrt))).
  apply (proj2 (proj2 (scale_never_below_one integer_sqrt))).
Defined.

(** ** Claims on validation and on the state of the form *)

Local Open Scope string_scope.


(** C6, as the code has it.  A request in which the wall length, the object
    count or the object width is NaN is refused with [InvalidInput] whatever
    the other fields are, so the check comes first; and nothing else is
    refused with [InvalidInput]: an infinite value is left to the later
    checks. *)
Theorem nan_is_rejected_first (wallW objW sp : jsnum) (numObj : jsint) :
  computeLayout wallW numObj objW sp = Failure InvalidInput
  <-> (isNaN wallW || isNaN (num_of numObj) || isNaN objW)%bool = true.
Proof.
  unfold computeLayout; cbv zeta.
  destruct (isNaN wallW || isNaN (num_of numObj) || isNaN objW)%bool.
  - split; reflexivity.
  - split; [|discriminate].
    destruct (jle wallW (JFin 0)); [discriminate|].
    destruct (jle objW (JFin 0)); [discriminate|].
    destruct (jlt (num_of numObj) (JFin 1)); [discriminate|].
    destruct (jlt (spacing_of sp) (JFin 0)); [discriminate|].
    destruct (jgt (jmul (num_of numObj) objW) wallW); [discriminate|].
    destruct (jgt (spacing_of sp) (JFin 0) && jgt (num_of numObj) (JFin 1))%bool.
    + destruct (jgt _ wallW); [discriminate|].
      destruct (place _ _ _ _ _ _ _); discriminate.
    + destruct (jeqb (num_of numObj) (JFin 1)); [discriminate|].
      destruct (place _ _ _ _ _ _ _); discriminate.
Qed.

Lemma nan_is_rejected_first_example :
  computeLayout (parseFloat "abc") (parseInt "0") (JFin (-1)) (JFin (-1))
  = Failure InvalidInput.
Proof.
  apply (proj2 (nan_is_rejected_first _ _ _ _)). reflexivity.
Defined.

(** C6 as stated fails: a wall length of [+Infinity] is not a finite number,
    yet the request is laid out and no error is set. *)
Lemma infinite_wall_is_laid_out :
  parseFloat (wallWidthField infinite_wall_request) = JPosInf
  /\ isFinite JPosInf = false
  /\ error (calculatePositions infinite_wall_request) = None
  /\ (exists v, visualData (calculatePositions infinite_wall_request) = Some v
                /\ gapSize v = Some JPosInf)
  /\ computeLayout JPosInf (IInt 3) (JFin 10) JNaN <> Failure InvalidInput
  /\ computeLayout JNegInf (IInt 3) (JFin 10) JNaN = Failure NonPositiveWall.
Proof.
  vm_compute. repeat split; eauto; discriminate.
Qed.

Lemma calculatePositions_outputs (s : AppState) :
  outputs (calculatePositions s)
  = match outcome_of s with
    | Failure e => (Some (message e), None, None)
    | Success html v => (None, Some (trim html), Some v)
    end.
Proof.
  unfold calculatePositions, outcome_of, outputs; cbv zeta. simpl.
  destruct (computeLayout _ _ _ _); reflexivity.
Qed.

(** C7. A request that fails a check leaves the error message of that check
    and nothing else: the report and the diagram data are cleared, whatever
    was stored before; and whenever an error is set after a calculation, no
    report and no diagram data are stored with it. *)
Theorem error_leaves_no_layout (s : AppState) :
  (forall e, outcome_of s = Failure e ->
             error (calculatePositions s) = Some (message e)
             /\ results (calculatePositions s) = None
             /\ visualData (calculatePositions s) = None)
  /\ (error (calculatePositions s) <> None ->
      results (calculatePositions s) = None
      /\ visualData (calculatePositions s) = None)
  /\ (forall html v, outcome_of s = Success html v ->
             error (calculatePositions s) = None
             /\ results (calculatePositions s) = Some (trim html)
             /\ visualData (calculatePositions s) = Some v).
Proof.
  pose proof (calculatePositions_outputs s) as H. unfold outputs in H.
  destruct (outcome_of s) as [e|html v]; injection H as He Hr Hv.
  - split; [|split].
    + intros e' E. injection E as <-. auto.
    + auto.
    + intros html v E. discriminate E.
  - split; [|split].
    + intros e E. discriminate E.
    + intro Hne. contradiction.
    + intros html' v' E. injection E as <- <-. auto.
Qed.




Lemma error_leaves_no_layout_example :
  outcome_of stale_request = Failure ObjectsExceedWall
  /\ error (calculatePositions stale_request)
     = Some (message ObjectsExceedWall)
  /\ results (calculatePositions stale_request) = None
  /\ visualData (calculatePositions stale_request) = None.
Proof.
  split; [reflexivity|].
  apply (proj1 (error_leaves_no_layout stale_request)).
  reflexivity.
Defined.

(** ** Claims on the dimension labels *)

Lemma DimensionLabel_finite (t : Transform) (startX endX : Q) (y : jsnum)
    (label : string) :
  1 <= scale t ->
  DimensionLabel t (JFin startX) (JFin endX) y label = None
  <-> endX - startX <= label_threshold / scale t.
Proof.
  intro H. unfold DimensionLabel; cbv zeta.
  rewrite jdiv_finite by (apply at_least_one_nonzero, H).
  change (jgt (jsub (JFin endX) (JFin startX))
            (JFin (label_threshold / scale t)))
    with (Qlt_bool (label_threshold / scale t) (endX - startX)).
  destruct (Qlt_bool _ _) eqn:E; simpl; reflect_tests.
  - split; [discriminate|]. intro Hle. exfalso.
    apply (Qlt_not_le _ _ E Hle).
  - split; [intros _; exact E | reflexivity].
Qed.

Lemma last_cons {A : Type} (a d : A) (l : list A) :
  List.last (a :: l) d = List.last l a.
Proof.
  revert a d. induction l as [|b l IH]; intros a d; [reflexivity|].
  change (List.last (a :: b :: l) d) with (List.last (b :: l) d).
  now rewrite (IH b d), (IH b a).
Qed.


(** ** Further properties of the layout computation *)

Lemma inject_Z_ge_1 (z : Z) : (1 <= z)%Z -> 1 <= inject_Z z.
Proof.
  intro H. change (inject_Z 1 <= inject_Z z). rewrite <- Zle_Qle. exact H.
Qed.

Lemma inject_Z_gt_1 (z : Z) : (1 < z)%Z -> 1 < inject_Z z.
Proof.
  intro H. change (inject_Z 1 < inject_Z z). rewrite <- Zlt_Qlt. exact H.
Qed.

(** X6. The mode of a layout on a finite wall and the fields it carries:
    it is uniform exactly when there is more than one object and no
    spacing; a uniform layout carries [gapSize] alone, any other carries
    [sideGap] and [innerGap] alone, and the inner gap is the spacing asked for
    or 0 for a single object. *)
Theorem mode_and_fields (W : Q) (numObj : jsint) (objW sp : jsnum)
    (html : string) (v : VisualData) :
  computeLayout (JFin W) numObj objW sp = Success html v ->
  (mode v = uniform
   <-> jgt (num_of numObj) (JFin 1) = true /\ jeq (spacing_of sp) (JFin 0))
  /\ (mode v = uniform ->
      gapSize v <> None /\ sideGap v = None /\ innerGap v = None)
  /\ (mode v = desired ->
      gapSize v = None /\ sideGap v <> None
      /\ (innerGap v = Some (spacing_of sp)
          \/ numObj = IInt 1 /\ innerGap v = Some (JFin 0))).
Proof.
  intro H.
  destruct (computeLayout_success _ _ _ _ _ _ H)
    as (z & w & c & g & -> & _ & Hz & _ & _ & _ & _ & _ & _ & _ & Hp).
  unfold jgt; simpl.
  destruct Hp as [Hz1 Hpos Eg Hm Hgs Hsg Hig | -> Hm Hgs Hsg Hig
                 | Hz1 (s & Es & Hs) _ Hm Hgs Hsg Hig];
    rewrite Hm, Hgs, Hsg, Hig.
  - split; [split; [discriminate|]|].
    + intros [_ Hj]. rewrite Eg in Hj. simpl in Hj. lra.
    + split; [discriminate|]. intros _.
      repeat split; try discriminate. left. now rewrite Eg.
  - split; [split; [discriminate|]|].
    + intros [Hj _]. discriminate Hj.
    + split; [discriminate|]. intros _.
      repeat split; try discriminate. right. split; reflexivity.
  - split; [split|].
    + intros _. split.
      * apply Qlt_bool_iff. apply inject_Z_gt_1, Hz1.
      * rewrite Es. exact Hs.
    + reflexivity.
    + split; [|discriminate]. intros _. repeat split. discriminate.
Qed.

Lemma mode_and_fields_example :
  exists html v,
    computeLayout (JFin 300) (IInt 3) (JFin 10) JNaN = Success html v
    /\ mode v = uniform /\ sideGap v = None.
Proof.
  destruct (computeLayout_accepts 300 10 0 3 JNaN) as (html & v & H);
    try reflexivity; try discriminate.
  destruct (mode_and_fields 300 (IInt 3) (JFin 10) JNaN html v H)
    as (Hm & Hu & _).
  assert (E : mode v = uniform) by (apply Hm; split; reflexivity).
  exists html, v. split; [exact H|]. split; [exact E|].
  apply (Hu E).
Defined.

(** ** Further properties of the form *)

Local Open Scope string_scope.

(** X8. A calculation depends on the four fields only and leaves them as
    they are: two states with the same fields reach the same state, whatever
    outputs they held, and calculating twice is calculating once. *)
Theorem calculation_depends_on_fields_only :
  (forall s s' : AppState,
      wallWidthField s = wallWidthField s' ->
      numObjects s = numObjects s' ->
      objectWidth s = objectWidth s' ->
      desiredSpacing s = desiredSpacing s' ->
      calculatePositions s = calculatePositions s')
  /\ (forall s : AppState,
        wallWidthField (calculatePositions s) = wallWidthField s
        /\ numObjects (calculatePositions s) = numObjects s
        /\ objectWidth (calculatePositions s) = objectWidth s
        /\ desiredSpacing (calculatePositions s) = desiredSpacing s
        /\ calculatePositions (calculatePositions s) = calculatePositions s).
Proof.
  assert (Hsame :
    forall s s' : AppState,
      wallWidthField s = wallWidthField s' ->
      numObjects s = numObjects s' ->
      objectWidth s = objectWidth s' ->
      desiredSpacing s = desiredSpacing s' ->
      calculatePositions s = calculatePositions s').
  { intros [a b c d r v e] [a' b' c' d' r' v' e']; simpl.
    intros -> -> -> ->. reflexivity. }
  assert (Hkeep :
    forall s : AppState,
      wallWidthField (calculatePositions s) = wallWidthField s
      /\ numObjects (calculatePositions s) = numObjects s
      /\ objectWidth (calculatePositions s) = objectWidth s
      /\ desiredSpacing (calculatePositions s) = desiredSpacing s).
  { intros [a b c d r v e]. unfold calculatePositions; cbv zeta; simpl.
    destruct (computeLayout _ _ _ _); simpl; repeat split. }
  split; [exact Hsame|].
  intro s. destruct (Hkeep s) as (Ha & Hb & Hc & Hd).
  repeat split; try assumption.
  apply Hsame; assumption.
Qed.

Lemma calculation_depends_on_fields_only_example :
  calculatePositions stale_request
  = calculatePositions (mkApp "100" "3" "40" "" None None (Some "x")).
Proof.
  apply (proj1 calculation_depends_on_fields_only); reflexivity.
Defined.

Lemma has_ink_app (a b : string) :
  has_ink (a ++ b) = (has_ink a || has_ink b)%bool.
Proof.
  induction a as [|c a IH]; simpl; [reflexivity|].
  rewrite IH. apply orb_assoc.
Qed.

Lemma has_ink_rev (s : string) :
  forall acc, has_ink (rev_string s acc) = (has_ink s || has_ink acc)%bool.
Proof.
  induction s as [|c s IH]; intro acc; simpl; [reflexivity|].
  rewrite IH. simpl.
  destruct (is_space c), (has_ink s), (has_ink acc); reflexivity.
Qed.

Lemma has_ink_skip (s : string) : has_ink (skip_spaces s) = has_ink s.
Proof.
  induction s as [|c s IH]; simpl; [reflexivity|].
  destruct (is_space c) eqn:E; simpl; [exact IH | now rewrite E].
Qed.

(** [trim] keeps every character that is not white space. *)
Lemma has_ink_trim (s : string) : has_ink (trim s) = has_ink s.
Proof.
  unfold trim.
  rewrite has_ink_rev, has_ink_skip, has_ink_rev, has_ink_skip.
  simpl. now rewrite !orb_false_r.
Qed.

Lemma has_ink_truthy (s : string) :
  has_ink s = true -> truthy_text (Some s) = true.
Proof.
  destruct s; [discriminate | reflexivity].
Qed.

Lemma place_keeps_ink (todo : nat) :
  forall i objW gap currentPos acc html,
    has_ink html = true ->
    has_ink (snd (place todo i objW gap currentPos acc html)) = true.
Proof.
  induction todo as [|todo IH]; intros i objW gap currentPos acc html H;
    simpl; [exact H|].
  apply IH. rewrite has_ink_app, H. reflexivity.
Qed.

(** The report of an accepted request is not blank. *)
Lemma report_has_ink (wallW objW sp : jsnum) (numObj : jsint)
    (html : string) (v : VisualData) :
  computeLayout wallW numObj objW sp = Success html v -> has_ink html = true.
Proof.
  unfold computeLayout; cbv zeta.
  destruct (isNaN wallW || isNaN (num_of numObj) || isNaN objW)%bool;
    [discriminate|].
  destruct (jle wallW (JFin 0)); [discriminate|].
  destruct (jle objW (JFin 0)); [discriminate|].
  destruct (jlt (num_of numObj) (JFin 1)); [discriminate|].
  destruct (jlt (spacing_of sp) (JFin 0)); [discriminate|].
  destruct (jgt (jmul (num_of numObj) objW) wallW); [discriminate|].
  destruct (jgt (spacing_of sp) (JFin 0) && jgt (num_of numObj) (JFin 1))%bool.
  - destruct (jgt (jadd _ _) wallW); [discriminate|].
    destruct (place _ _ _ _ _ _ _) as [objs h] eqn:Ep.
    intro E; injection E as <- _.
    change h with (snd (objs, h)). rewrite <- Ep.
    apply place_keeps_ink. reflexivity.
  - destruct (jeqb (num_of numObj) (JFin 1)).
    + intro E; injection E as <- _. reflexivity.
    + destruct (place _ _ _ _ _ _ _) as [objs h] eqn:Ep.
      intro E; injection E as <- _.
      change h with (snd (objs, h)). rewrite <- Ep.
      apply place_keeps_ink. reflexivity.
Qed.

Lemma message_truthy (e : ValidationError) :
  truthy_text (Some (message e)) = true.
Proof. destruct e; reflexivity. Qed.

(** X9. What the form shows.  Before any calculation only the placeholder
    line is drawn.  After a calculation the placeholder is never drawn and
    exactly one of the two boxes is: the error box with the message of the
    failed check and no diagram, or the report, which is never blank, with
    the diagram. *)
Theorem one_box_after_calculating (s : AppState) :
  render initial = mkPanels None None None true
  /\ placeholder_panel (render (calculatePositions s)) = false
  /\ (forall e, outcome_of s = Failure e ->
        render (calculatePositions s)
        = mkPanels None (Some (message e)) None false)
  /\ (forall html v, outcome_of s = Success html v ->
        render (calculatePositions s)
        = mkPanels (Some v) None (Some (trim html)) false
        /\ has_ink (trim html) = true).
Proof.
  pose proof (calculatePositions_outputs s) as H. unfold outputs in H.
  assert (Hfail : forall e, outcome_of s = Failure e ->
            render (calculatePositions s)
            = mkPanels None (Some (message e)) None false).
  { intros e E. rewrite E in H. injection H as He Hr Hv.
    unfold render. rewrite He, Hr, Hv, message_truthy. reflexivity. }
  assert (Hok : forall html v, outcome_of s = Success html v ->
            render (calculatePositions s)
            = mkPanels (Some v) None (Some (trim html)) false
            /\ has_ink (trim html) = true).
  { intros html v E. rewrite E in H. injection H as He Hr Hv.
    assert (Hink : has_ink (trim html) = true).
    { rewrite has_ink_trim. exact (report_has_ink _ _ _ _ _ _ E). }
    split; [|exact Hink].
    unfold render. rewrite He, Hr, Hv, (has_ink_truthy _ Hink). reflexivity. }
  split; [reflexivity|]. split; [|split; assumption].
  destruct (outcome_of s) as [e|html v] eqn:E.
  - now rewrite (Hfail e eq_refl).
  - now rewrite (proj1 (Hok html v eq_refl)).
Qed.

Lemma one_box_after_calculating_example :
  render (calculatePositions stale_request)
  = mkPanels None (Some (message ObjectsExceedWall)) None false.
Proof.
  apply (one_box_after_calculating stale_request). reflexivity.
Defined.

(** ** Further properties of the view transform *)

Section Dragging.

Variable p0 : Point.

(** While the button is held the snapshot taken at the press stays, and the
    transform is the snapshot moved by the way from the press to the last
    position. *)
Lemma drag_invariant (t0 : Transform) (moves : list Point) :
  forall (s1 : ViewState) (q : Point),
    isPanning s1 = true -> startPanPoint s1 = p0 -> startTransform s1 = t0 ->
    scale (transform s1) = scale t0 ->
    translateX (transform s1) == translateX t0 + (clientX q - clientX p0) ->
    translateY (transform s1) == translateY t0 + (clientY q - clientY p0) ->
    let s2 := fold_left (fun s p => handleMouseMove p s) moves s1 in
    let q' := List.last moves q in
    scale (transform s2) = scale t0
    /\ translateX (transform s2)
       == translateX t0 + (clientX q' - clientX p0)
    /\ translateY (transform s2)
       == translateY t0 + (clientY q' - clientY p0).
Proof.
  induction moves as [|p moves IH]; intros s1 q Hpan Hp Ht Hs Hx Hy.
  - simpl. auto.
  - cbv zeta. rewrite last_cons.
    change (fold_left (fun s p => handleMouseMove p s) (p :: moves) s1)
      with (fold_left (fun s p => handleMouseMove p s) moves
              (handleMouseMove p s1)).
    apply IH; unfold handleMouseMove; rewrite Hpan; simpl;
      rewrite ?Hp, ?Ht; auto; reflexivity.
Qed.

End Dragging.

(** X10. A drag follows the pointer: after a press at [p0] and any moves,
    the scale is unchanged and the translation is the one at the press plus
    the way from [p0] to the last position, whatever the path in between. *)
Theorem drag_follows_pointer (p0 : Point) (moves : list Point)
    (s : ViewState) :
  let q := List.last moves p0 in
  same_transform (transform (drag p0 moves s))
    (mkTransform (scale (transform s))
       (translateX (transform s) + (clientX q - clientX p0))
       (translateY (transform s) + (clientY q - clientY p0))).
Proof.
  cbv zeta. unfold drag, same_transform.
  destruct (drag_invariant p0 (transform s) moves (handleMouseDown p0 s) p0)
    as (Hs & Hx & Hy); try reflexivity; try (simpl; ring).
  simpl. rewrite Hs. repeat split; assumption.
Qed.

Section PinchProperties.

Variable Math_sqrt : Q -> Q.

(** X13. Moves within one gesture do not add up: the state after two moves
    of a pinch, or of a one-finger or mouse drag, is the state after the
    second alone. *)
Theorem moves_do_not_accumulate (s : ViewState) :
  (forall a b a' b' r r',
      handleTouchMove Math_sqrt [a'; b'] r'
        (handleTouchMove Math_sqrt [a; b] r s)
      = handleTouchMove Math_sqrt [a'; b'] r' s)
  /\ (forall p p' r r',
        handleTouchMove Math_sqrt [p'] r' (handleTouchMove Math_sqrt [p] r s)
        = handleTouchMove Math_sqrt [p'] r' s)
  /\ (forall p p',
        handleMouseMove p' (handleMouseMove p s) = handleMouseMove p' s).
Proof.
  destruct s as [cw t pan sp st ipd].
  split; [|split].
  - intros a b a' b' r r'. simpl.
    destruct (Qlt_bool 0 ipd) eqn:E; simpl; rewrite E; reflexivity.
  - intros p p' r r'. simpl. destruct pan; reflexivity.
  - intros p p'. unfold handleMouseMove. simpl. destruct pan; reflexivity.
Qed.

(** X14. A gesture that has ended is over.  After a touch end or cancel no
    sequence of mouse or touch moves changes the state; after the mouse
    button is released or the pointer leaves, mouse moves and one-finger
    moves change nothing; and a second finger stops the drag of the
    first. *)
Theorem moves_after_the_end_are_ignored (s : ViewState) :
  (forall events,
      forallb is_move events = true ->
      run Math_sqrt (handleTouchEnd s) events = handleTouchEnd s)
  /\ (forall p, handleMouseMove p (handleMouseUpOrLeave s)
                = handleMouseUpOrLeave s)
  /\ (forall p r, handleTouchMove Math_sqrt [p] r (handleMouseUpOrLeave s)
                  = handleMouseUpOrLeave s)
  /\ (forall a b p r,
        handleTouchMove Math_sqrt [p] r (handleTouchStart Math_sqrt [a; b] s)
        = handleTouchStart Math_sqrt [a; b] s)
  /\ (forall a b p,
        handleMouseMove p (handleTouchStart Math_sqrt [a; b] s)
        = handleTouchStart Math_sqrt [a; b] s).
Proof.
  split; [|split; [|split; [|split]]].
  - induction events as [|e events IH]; intro H; [reflexivity|].
    simpl in H. apply andb_true_iff in H. destruct H as [He H].
    change (run Math_sqrt (handleTouchEnd s) (e :: events))
      with (run Math_sqrt (step Math_sqrt (handleTouchEnd s) e) events).
    assert (Estep : step Math_sqrt (handleTouchEnd s) e = handleTouchEnd s).
    { destruct e; try discriminate He; simpl.
      - reflexivity.
      - destruct touches as [|t0 [|t1 [|t2 rest]]]; reflexivity. }
    rewrite Estep. exact (IH H).
  - intro p. unfold handleMouseMove, handleMouseUpOrLeave.
    destruct (isPanning s) eqn:E; simpl; [reflexivity|].
    now rewrite E.
  - intros p r. unfold handleMouseUpOrLeave. simpl.
    destruct (isPanning s) eqn:E; simpl; [reflexivity|].
    now rewrite E.
  - reflexivity.
  - reflexivity.
Qed.

End PinchProperties.

(** ** Further properties of the drawing *)

(** X18. Zooming in never hides a dimension label: a label drawn at some
    scale is drawn, at the same place and with the same text, at every
    larger scale; and a label hidden at some scale is hidden at every
    smaller scale down to 1. *)
Theorem zooming_in_keeps_labels (t t' : Transform) (startX endX : Q)
    (y : jsnum) (label : string) :
  1 <= scale t -> scale t <= scale t' ->
  (forall drawn,
      DimensionLabel t (JFin startX) (JFin endX) y label = Some drawn ->
      DimensionLabel t' (JFin startX) (JFin endX) y label = Some drawn)
  /\ (DimensionLabel t' (JFin startX) (JFin endX) y label = None ->
      DimensionLabel t (JFin startX) (JFin endX) y label = None).
Proof.
  intros Ht Hle.
  assert (Ht' : 1 <= scale t') by lra.
  assert (Hlim : label_threshold / scale t' <= label_threshold / scale t).
  { unfold label_threshold.
    assert (Ha : 25 / scale t' * scale t' == 25) by (field; lra).
    assert (Hb : 25 / scale t * scale t == 25) by (field; lra).
    assert (Ha0 : 0 < 25 / scale t') by (apply Qlt_shift_div_l; lra).
    set (a := 25 / scale t') in *. set (b := 25 / scale t) in *.
    clearbody a b. nra. }
  assert (Hnone :
    DimensionLabel t' (JFin startX) (JFin endX) y label = None ->
    DimensionLabel t (JFin startX) (JFin endX) y label = None).
  { intro H. apply DimensionLabel_finite in H; [|exact Ht'].
    apply DimensionLabel_finite; [exact Ht | lra]. }
  split; [|exact Hnone].
  intros drawn H.
  destruct (DimensionLabel t' (JFin startX) (JFin endX) y label)
    as [drawn'|] eqn:E'.
  - unfold DimensionLabel in H, E'; cbv zeta in H, E'.
    destruct (negb _) in H; [discriminate|].
    destruct (negb _) in E'; [discriminate|].
    congruence.
  - rewrite (Hnone eq_refl) in H. discriminate.
Qed.

Lemma zooming_in_keeps_labels_example :
  DimensionLabel (mkTransform 1 0 0) (JFin 0) (JFin 10) dimTextY "10" = None.
Proof.
  destruct (zooming_in_keeps_labels (mkTransform 1 0 0) (mkTransform 2 0 0)
              0 10 dimTextY "10") as (_ & H);
    [discriminate | discriminate |].
  apply H. reflexivity.
Defined.

Section Snapshots.

Variable Math_sqrt : Q -> Q.

Lemma step_snapshot (s : ViewState) (e : Event) :
  1 <= scale (transform s) /\ 1 <= scale (startTransform s)
  /\ 0 <= containerWidth s ->
  1 <= scale (transform (step Math_sqrt s e))
  /\ 1 <= scale (startTransform (step Math_sqrt s e))
  /\ 0 <= containerWidth (step Math_sqrt s e).
Proof.
  intros (Ht & Hs & Hc).
  split; [apply step_scale; exact Ht|].
  destruct e as [entries| |deltaY cursor svgRect|p|p| | |touches
                |touches svgRect| |]; simpl; auto.
  - destruct entries as [|width rest]; simpl; auto.
    destruct (Qlt_bool 0 width) eqn:E; simpl; auto.
    reflect_tests. split; [assumption | lra].
  - unfold handleMouseMove. destruct (negb (isPanning s)); simpl; auto.
  - unfold handleMouseUpOrLeave. destruct (isPanning s); simpl; auto.
  - unfold handleMouseUpOrLeave. destruct (isPanning s); simpl; auto.
  - destruct touches as [|t0 [|t1 [|t2 rest]]]; simpl; auto.
  - destruct touches as [|t0 [|t1 [|t2 rest]]]; simpl; auto.
    + destruct (isPanning s); simpl; auto.
    + destruct (Qlt_bool 0 (initialPinchDistance s)); simpl; auto.
Qed.

(** X19. In every state the component can reach, the snapshot a gesture
    works from has a scale of at least 1 and the container width is not
    negative, so that no handler and no drawing divides by zero. *)
Theorem snapshots_are_sound (events : list Event) :
  1 <= scale (startTransform (run Math_sqrt initialView events))
  /\ 0 <= containerWidth (run Math_sqrt initialView events).
Proof.
  assert (H : forall evs s,
            1 <= scale (transform s) /\ 1 <= scale (startTransform s)
            /\ 0 <= containerWidth s ->
            1 <= scale (startTransform (run Math_sqrt s evs))
            /\ 0 <= containerWidth (run Math_sqrt s evs)).
  { induction evs as [|e evs IH]; intros s Hs.
    - simpl. tauto.
    - change (run Math_sqrt s (e :: evs))
        with (run Math_sqrt (step Math_sqrt s e) evs).
      apply IH, step_snapshot, Hs. }
  apply H. simpl. repeat split; discriminate.
Qed.

End Snapshots.

(** ** Finite walls give finite layouts *)



(** ** The layout of an accepted request *)


Lemma qobjs_all_widths (w g : Q) (todo : nat) (c : Q) :
  Forall (fun o => width o = JFin w) (qobjs todo c w g).
Proof.
  apply Forall_forall. intros o Ho.
  destruct (In_nth_error _ _ Ho) as (i & Hi).
  destruct (qobjs_nth w g _ _ _ _ Hi) as (_ & _ & _ & Hw). exact Hw.
Qed.



(** C2, as the code has it.  For every valid request with a finite wall
    length, more than one object and a spacing of 0, the layout is in
    uniform mode with [gapSize = (wallLength - objectCount * objectWidth) /
    (objectCount + 1)], which is not negative; the first object starts at
    [gapSize] and each next one at the end of the one before it plus
    [gapSize], each of these being the value the code computes.  In
    particular the request (300, 3, 10, 0) gives the gap 67.5 and the starts
    67.5, 145 and 222.5, on doubles as well. *)
Theorem uniform_policy_steps :
  (forall (W w : Q) (z : Z) (sp : jsnum) (html : string) (v : VisualData),
      (1 < z)%Z -> jeq (spacing_of sp) (JFin 0) ->
      computeLayout (JFin W) (IInt z) (JFin w) sp = Success html v ->
      exists g,
        mode v = uniform
        /\ gapSize v = Some g /\ sideGap v = None /\ innerGap v = None
        /\ jeq g (jdiv (jsub (JFin W) (jmul (num_of (IInt z)) (JFin w)))
                    (jadd (num_of (IInt z)) (JFin 1)))
        /\ jle (JFin 0) g = true
        /\ List.length (objects v) = Z.to_nat z
        /\ Forall (fun o => width o = JFin w) (objects v)
        /\ (exists o, nth_error (objects v) 0 = Some o /\ start o = g)
        /\ (forall i o o',
              nth_error (objects v) i = Some o ->
              nth_error (objects v) (S i) = Some o' ->
              jeq (start o') (jadd (obj_end o) g)))
  /\ (exists html v g,
        computeLayout (JFin 300) (IInt 3) (JFin 10) (JFin 0) = Success html v
        /\ mode v = uniform
        /\ gapSize v = Some g /\ jeq g (JFin 67.5)
        /\ Forall2 jeq (map start (objects v))
              [JFin 67.5; JFin 145; JFin 222.5])
  /\ (exists html v,
        Binary64.layout_of "300" "3" "10" "0" = Binary64.Success html v
        /\ Binary64.mode v = uniform
        /\ Binary64.gapSize v = Some (Binary64.parseFloat "67.5")
        /\ map Binary64.start (Binary64.objects v)
           = [Binary64.parseFloat "67.5"; Binary64.parseFloat "145";
              Binary64.parseFloat "222.5"]).
Proof.
  split; [|split;
           [|eexists; eexists; split; [vm_compute; reflexivity|];
             repeat split; vm_compute; reflexivity]].
  - intros W w z sp html v Hz Hsp H.
    destruct (uniform_shape _ _ _ _ _ _ Hz Hsp H)
      as (g & Hm & Hgap & Hg & _ & Hfill & _ & Eobjs).
    destruct (computeLayout_success _ _ _ _ _ _ H)
      as (z' & w' & c' & g' & _ & _ & _ & _ & _ & _ & _ & _ & _ & _ & Hp).
    assert (Hq : 1 < inject_Z z).
    { change (inject_Z 1 < inject_Z z). rewrite <- Zlt_Qlt. exact Hz. }
    exists (JFin g). rewrite Eobjs.
    split; [exact Hm|]. split; [exact Hgap|].
    split; [destruct Hp; congruence|]. split; [destruct Hp; congruence|].
    split.
    { change (jdiv (jsub (JFin W) (jmul (num_of (IInt z)) (JFin w)))
                (jadd (num_of (IInt z)) (JFin 1)))
        with (jdiv (JFin (W - inject_Z z * w)) (JFin (inject_Z z + 1))).
      rewrite jdiv_finite by lra. simpl. rewrite <- Hfill. field. lra. }
    split; [apply Qle_bool_iff; exact Hg|].
    split; [apply qobjs_length|]. split; [apply qobjs_all_widths|].
    split.
    + destruct (Z.to_nat z) as [|k] eqn:Ek; [lia|].
      exists (mkObject (JFin g) (JFin w)). split; reflexivity.
    + intros i o o' Ho Ho'. exact (qobjs_consecutive w g _ _ _ _ _ Ho Ho').
  - eexists. eexists. eexists.
    split; [vm_compute; reflexivity|].
    split; [reflexivity|].
    split; [reflexivity|].
    split; [reflexivity|].
    repeat constructor.
Qed.

Lemma uniform_policy_steps_example :
  exists html v g,
    computeLayout (JFin 120) (IInt 2) (JFin 30) JNaN = Success html v
    /\ gapSize v = Some g /\ jeq g (JFin 20).
Proof.
  destruct (computeLayout_accepts 120 30 0 2 JNaN) as (html & v & H);
    try reflexivity; try discriminate.
  destruct (proj1 uniform_policy_steps 120 30 2%Z JNaN html v)
    as (g & _ & Hg & _ & _ & Hq & _);
    [reflexivity | reflexivity | exact H |].
  exists html, v, g. split; [exact H|]. split; [exact Hg|].
  destruct g as [| | |q]; try contradiction. simpl in Hq |- *.
  rewrite Hq. reflexivity.
Defined.

(** C3, as the code has it.  For every valid request with a finite wall
    length, more than one object and a spacing [s > 0], the layout is in
    desired mode with [innerGap = s] and
    [sideGap = (wallLength - (objectCount * objectWidth
    + (objectCount - 1) * s)) / 2], which is not negative; the first object
    starts at [sideGap] and each next one at the end of the one before it
    plus [s], each of these being the value the code computes. *)
Theorem desired_policy_steps (W w : Q) (z : Z) (sp : jsnum)
    (html : string) (v : VisualData) :
  (1 < z)%Z -> jgt (spacing_of sp) (JFin 0) = true ->
  computeLayout (JFin W) (IInt z) (JFin w) sp = Success html v ->
  exists sg,
    mode v = desired
    /\ sideGap v = Some sg /\ innerGap v = Some (spacing_of sp)
    /\ gapSize v = None
    /\ jeq sg (jdiv (jsub (JFin W)
                       (jadd (jmul (num_of (IInt z)) (JFin w))
                          (jmul (jsub (num_of (IInt z)) (JFin 1))
                             (spacing_of sp))))
                 (JFin 2))
    /\ jle (JFin 0) sg = true
    /\ List.length (objects v) = Z.to_nat z
    /\ Forall (fun o => width o = JFin w) (objects v)
    /\ (exists o, nth_error (objects v) 0 = Some o /\ start o = sg)
    /\ (forall i o o',
          nth_error (objects v) i = Some o ->
          nth_error (objects v) (S i) = Some o' ->
          jeq (start o') (jadd (obj_end o) (spacing_of sp))).
Proof.
  intros Hz Hpos H.
  destruct (computeLayout_success _ _ _ _ _ _ H)
    as (z' & w' & c & g & Ez & Ew & _ & _ & _ & Hc & _ & _ & _ & _ & Hp).
  injection Ez as <-. injection Ew as <-.
  assert (Es : exists s, spacing_of sp = JFin s /\ 0 < s).
  { destruct Hp as [_ Hg Eg _ _ _ _ | Ez1 | _ (s & Es & Hs) _ _ _ _ _].
    - exists g. split; assumption.
    - lia.
    - rewrite Es in Hpos. unfold jgt in Hpos; simpl in Hpos.
      reflect_tests. lra. }
  destruct Es as (s & Es & Hs).
  destruct (desired_shape _ _ _ _ _ _ _ Hz Es Hs H)
    as (sg & Hm & Hside & Hinner & Hsg & Hfill & _ & Eobjs).
  exists (JFin sg). rewrite Eobjs, Es.
  split; [exact Hm|]. split; [exact Hside|]. split; [exact Hinner|].
  split; [destruct Hp; congruence|].
  split.
  { change (jdiv (jsub (JFin W)
              (jadd (jmul (num_of (IInt z)) (JFin w))
                 (jmul (jsub (num_of (IInt z)) (JFin 1)) (JFin s))))
              (JFin 2))
      with (JFin ((W - (inject_Z z * w + (inject_Z z - 1) * s)) / 2)).
    simpl. rewrite <- Hfill. field. }
  split; [apply Qle_bool_iff; exact Hsg|].
  split; [apply qobjs_length|]. split; [apply qobjs_all_widths|].
  split.
  - destruct (Z.to_nat z) as [|k] eqn:Ek; [lia|].
    exists (mkObject (JFin sg) (JFin w)). split; reflexivity.
  - intros i o o' Ho Ho'. exact (qobjs_consecutive w s _ _ _ _ _ Ho Ho').
Qed.

Lemma desired_policy_steps_example :
  exists html v sg,
    computeLayout (JFin 300) (IInt 3) (JFin 10) (JFin 20) = Success html v
    /\ sideGap v = Some sg /\ jeq sg (JFin 115).
Proof.
  destruct (computeLayout_accepts 300 10 20 3 (JFin 20)) as (html & v & H);
    try reflexivity; try discriminate.
  destruct (desired_policy_steps 300 10 3%Z (JFin 20) html v)
    as (sg & _ & Hs & _ & _ & Hq & _);
    [reflexivity | reflexivity | exact H |].
  exists html, v, sg. split; [exact H|]. split; [exact Hs|].
  destruct sg as [| | |q]; try contradiction. simpl in Hq |- *.
  rewrite Hq. reflexivity.
Defined.

(** C9, as the code has it.  In uniform mode the gap size never grows with
    the object width: of two accepted requests on the same finite wall, with
    the same number of objects (more than one) and no spacing, the one with
    the larger object width has a [gapSize] that is smaller or equal. *)
Theorem uniform_gap_never_grows (W w1 w2 : Q) (z : Z) (sp : jsnum)
    (html1 html2 : string) (v1 v2 : VisualData) :
  (1 < z)%Z -> jeq (spacing_of sp) (JFin 0) ->
  w1 < w2 ->
  computeLayout (JFin W) (IInt z) (JFin w1) sp = Success html1 v1 ->
  computeLayout (JFin W) (IInt z) (JFin w2) sp = Success html2 v2 ->
  exists g1 g2,
    mode v1 = uniform /\ mode v2 = uniform
    /\ gapSize v1 = Some g1 /\ gapSize v2 = Some g2
    /\ jle g2 g1 = true.
Proof.
  intros Hz Hsp Hlt H1 H2.
  destruct (uniform_shape _ _ _ _ _ _ Hz Hsp H1)
    as (g1 & Hm1 & Hg1 & _ & _ & Hf1 & _).
  destruct (uniform_shape _ _ _ _ _ _ Hz Hsp H2)
    as (g2 & Hm2 & Hg2 & _ & _ & Hf2 & _).
  exists (JFin g1), (JFin g2). repeat split; try assumption.
  simpl. apply Qle_bool_iff.
  assert (Hq : 1 < inject_Z z).
  { change (inject_Z 1 < inject_Z z). rewrite <- Zlt_Qlt. exact Hz. }
  nra.
Qed.

Lemma uniform_gap_never_grows_example :
  exists html1 v1 html2 v2,
    computeLayout (JFin 300) (IInt 3) (JFin 10) (JFin 0) = Success html1 v1
    /\ computeLayout (JFin 300) (IInt 3) (JFin 20) (JFin 0) = Success html2 v2
    /\ exists g1 g2,
         mode v1 = uniform /\ mode v2 = uniform
         /\ gapSize v1 = Some g1 /\ gapSize v2 = Some g2
         /\ jle g2 g1 = true.
Proof.
  eexists. eexists. eexists. eexists.
  split; [vm_compute; reflexivity|].
  split; [vm_compute; reflexivity|].
  refine (uniform_gap_never_grows 300 10 20 3%Z (JFin 0) _ _ _ _ _ _ _ _ _).
  - reflexivity.
  - reflexivity.
  - reflexivity.
  - vm_compute; reflexivity.
  - vm_compute; reflexivity.
Defined.

(** ** What rounding and an infinite wall do to a layout *)


(** C2 as stated fails on doubles.  For a wall of 100 and two objects of 10
    the three gaps are all different, and only the first is [gapSize]; on an
    infinite wall the gaps after the first are NaN. *)
Lemma uniform_gaps_are_not_all_equal :
  (exists v g g0 g1 g2,
      Binary64.data_of (Binary64.layout_of "100" "2" "10" "") = Some v
      /\ Binary64.mode v = uniform
      /\ Binary64.gapSize v = Some g
      /\ Binary64.gaps v = [g0; g1; g2]
      /\ PrimFloat.eqb g0 g = true
      /\ PrimFloat.ltb g g1 = true
      /\ PrimFloat.ltb g2 g = true)
  /\ (exists v g0 g1 g2 g3,
        Binary64.data_of (Binary64.layout_of "Infinity" "3" "10" "") = Some v
        /\ Binary64.gapSize v = Some PrimFloat.infinity
        /\ Binary64.gaps v = [g0; g1; g2; g3]
        /\ PrimFloat.is_nan g1 = true).
Proof.
  split.
  - do 5 eexists.
    split; [vm_compute; reflexivity|].
    split; [reflexivity|]. split; [reflexivity|].
    split; [vm_compute; reflexivity|].
    repeat split; vm_compute; reflexivity.
  - do 5 eexists.
    split; [vm_compute; reflexivity|].
    split; [reflexivity|].
    split; [vm_compute; reflexivity|]. vm_compute; reflexivity.
Qed.

(** C3 as stated fails on doubles.  For a wall of 428.1, five objects of
    65.4 and a spacing of 4.6 the first inner gap is below the spacing and
    the last above it; for 4.3, 2, 2.1 and 0.1 the left gap is 0 and the
    right one negative; on an infinite wall the right gap is NaN. *)
Lemma desired_gaps_are_not_all_equal :
  (exists v s left a b c d right,
      Binary64.data_of (Binary64.layout_of "428.1" "5" "65.4" "4.6") = Some v
      /\ Binary64.mode v = desired
      /\ Binary64.innerGap v = Some s
      /\ Binary64.gaps v = [left; a; b; c; d; right]
      /\ PrimFloat.ltb a s = true
      /\ PrimFloat.ltb s d = true)
  /\ (exists v left inner right,
        Binary64.data_of (Binary64.layout_of "4.3" "2" "2.1" "0.1") = Some v
        /\ Binary64.gaps v = [left; inner; right]
        /\ PrimFloat.ltb right left = true)
  /\ (exists v left a b right,
        Binary64.data_of (Binary64.layout_of "Infinity" "3" "10" "20")
        = Some v
        /\ Binary64.mode v = desired
        /\ Binary64.gaps v = [left; a; b; right]
        /\ PrimFloat.eqb left PrimFloat.infinity = true
        /\ PrimFloat.is_nan a = true
        /\ PrimFloat.is_nan right = true).
Proof.
  split; [|split].
  - do 8 eexists.
    split; [vm_compute; reflexivity|].
    split; [reflexivity|]. split; [reflexivity|].
    split; [vm_compute; reflexivity|].
    split; vm_compute; reflexivity.
  - do 4 eexists.
    split; [vm_compute; reflexivity|].
    split; [vm_compute; reflexivity|]. vm_compute; reflexivity.
  - do 5 eexists.
    split; [vm_compute; reflexivity|].
    split; [reflexivity|].
    split; [vm_compute; reflexivity|].
    repeat split; vm_compute; reflexivity.
Qed.

(** C9 as stated fails on doubles.  On a wall of 1000000 with two objects,
    the widths 1 and 1.0000000000000002 give the same [gapSize]; on an
    infinite wall every width gives the gap Infinity. *)
Lemma uniform_gap_can_stay_the_same :
  (exists v1 v2 g1 g2,
      Binary64.data_of (Binary64.layout_of "1000000" "2" "1" "") = Some v1
      /\ Binary64.data_of
           (Binary64.layout_of "1000000" "2" "1.0000000000000002" "")
         = Some v2
      /\ PrimFloat.ltb (Binary64.parseFloat "1")
           (Binary64.parseFloat "1.0000000000000002") = true
      /\ Binary64.mode v1 = uniform /\ Binary64.mode v2 = uniform
      /\ Binary64.gapSize v1 = Some g1 /\ Binary64.gapSize v2 = Some g2
      /\ PrimFloat.ltb g2 g1 = false)
  /\ (exists v1 v2,
        Binary64.data_of (Binary64.layout_of "Infinity" "3" "10" "")
        = Some v1
        /\ Binary64.data_of (Binary64.layout_of "Infinity" "3" "20" "")
           = Some v2
        /\ Binary64.gapSize v1 = Some PrimFloat.infinity
        /\ Binary64.gapSize v2 = Some PrimFloat.infinity).
Proof.
  split.
  - do 4 eexists.
    split; [vm_compute; reflexivity|].
    split; [vm_compute; reflexivity|].
    split; [vm_compute; reflexivity|].
    split; [reflexivity|]. split; [reflexivity|].
    split; [reflexivity|]. split; [reflexivity|].
    vm_compute; reflexivity.
  - do 2 eexists.
    split; [vm_compute; reflexivity|].
    split; [vm_compute; reflexivity|].
    split; reflexivity.
Qed.

(** ** The wheel, as the code has it *)

(** C4, as the code has it.  For every wheel event the new scale is
    [max(1, oldScale + (-deltaY) * k)] with [k = 0.001], and the new
    translation is [cursorPos - (cursorPos - oldTranslate) * (newScale /
    oldScale)] on each axis, the cursor being taken relative to the diagram;
    the new scale is at least 1, and a wheel event with [deltaY < 0] never
    lowers the scale. *)
Theorem wheel_zoom_steps (deltaY : Q) (cursor : Point) (svgRect : Rect)
    (s : ViewState) :
  scale (transform (handleWheel deltaY cursor svgRect s))
  = Math_max 1 (scale (transform s) + - deltaY * wheel_factor)
  /\ translateX (transform (handleWheel deltaY cursor svgRect s))
     = (clientX cursor - rect_left svgRect)
       - ((clientX cursor - rect_left svgRect) - translateX (transform s))
         * (scale (transform (handleWheel deltaY cursor svgRect s))
            / scale (transform s))
  /\ translateY (transform (handleWheel deltaY cursor svgRect s))
     = (clientY cursor - rect_top svgRect)
       - ((clientY cursor - rect_top svgRect) - translateY (transform s))
         * (scale (transform (handleWheel deltaY cursor svgRect s))
            / scale (transform s))
  /\ 1 <= scale (transform (handleWheel deltaY cursor svgRect s))
  /\ (deltaY < 0 ->
      scale (transform s)
      <= scale (transform (handleWheel deltaY cursor svgRect s))).
Proof.
  split; [reflexivity|]. split; [reflexivity|]. split; [reflexivity|].
  change (scale (transform (handleWheel deltaY cursor svgRect s)))
    with (Math_max 1 (scale (transform s) + - deltaY * wheel_factor)).
  split; [apply Math_max_lower|].
  intro H.
  pose proof (Math_max_upper 1 (scale (transform s) + - deltaY * wheel_factor))
    as Hup.
  unfold wheel_factor in *. lra.
Qed.

Lemma wheel_zoom_steps_example :
  -1000 < 0 /\ scale (transform initialView) <= scale wheel_example.
Proof.
  split; [reflexivity|].
  apply (wheel_zoom_steps (-1000) (mkPoint 120 40) (mkRect 20 10) initialView).
  reflexivity.
Defined.

(** C4 as stated fails on doubles.  From the initial transform a wheel event
    with [deltaY = -1e-14] leaves the scale at 1, the step being lost in the
    sum; and after a wheel event with [deltaY = -100] at the cursor x = 15
    the inverse transform maps the cursor to 14.999999999999998, not 15. *)
Lemma wheel_step_can_be_absorbed :
  (PrimFloat.ltb (Binary64.of_Q (-1 # 100000000000000)) PrimFloat.zero = true
   /\ PrimFloat.ltb (Binary64.scale Binary64.identity)
        (Binary64.scale
           (Binary64.handleWheel (Binary64.of_Q (-1 # 100000000000000))
              PrimFloat.zero PrimFloat.zero Binary64.identity))
      = false)
  /\ (PrimFloat.ltb (Binary64.of_Z (-100)) PrimFloat.zero = true
      /\ PrimFloat.eqb
           (Binary64.to_model (Binary64.of_Z 15)
              (Binary64.translateX Binary64.identity)
              (Binary64.scale Binary64.identity))
           (Binary64.of_Z 15)
         = true
      /\ PrimFloat.ltb
           (Binary64.to_model (Binary64.of_Z 15)
              (Binary64.translateX
                 (Binary64.handleWheel (Binary64.of_Z (-100))
                    (Binary64.of_Z 15) (Binary64.of_Z 100)
                    Binary64.identity))
              (Binary64.scale
                 (Binary64.handleWheel (Binary64.of_Z (-100))
                    (Binary64.of_Z 15) (Binary64.of_Z 100)
                    Binary64.identity)))
           (Binary64.of_Z 15)
         = true).
Proof.
  repeat split; vm_compute; reflexivity.
Qed.

(** ** The dimension labels, as the code has them *)




(** ** Further properties, as the code has them *)

(** X1. The checks run in a fixed order and the first that fails decides:
    a request is refused with the error of the first failing check of the
    list [checks] (not a number, wall not above 0, object width not above 0,
    fewer than one object, spacing below 0, objects wider than the wall,
    objects and requested spacing wider than the wall), whatever the later
    checks would say, and it is laid out exactly when no check fails. *)
Theorem first_failing_check_wins (wallW objW sp : jsnum) (numObj : jsint) :
  (forall e,
      computeLayout wallW numObj objW sp = Failure e
      <-> first_failing (checks wallW numObj objW sp) = Some e)
  /\ ((exists html v, computeLayout wallW numObj objW sp = Success html v)
      <-> first_failing (checks wallW numObj objW sp) = None).
Proof.
  unfold first_failing, checks, computeLayout; cbv zeta.
  destruct (isNaN wallW || isNaN (num_of numObj) || isNaN objW)%bool;
    [cbn; split; [intro e; split; congruence
                 | split; [intros (h & v & H); discriminate H
                          | discriminate]]|].
  destruct (jle wallW (JFin 0));
    [cbn; split; [intro e; split; congruence
                 | split; [intros (h & v & H); discriminate H
                          | discriminate]]|].
  destruct (jle objW (JFin 0));
    [cbn; split; [intro e; split; congruence
                 | split; [intros (h & v & H); discriminate H
                          | discriminate]]|].
  destruct (jlt (num_of numObj) (JFin 1));
    [cbn; split; [intro e; split; congruence
                 | split; [intros (h & v & H); discriminate H
                          | discriminate]]|].
  destruct (jlt (spacing_of sp) (JFin 0));
    [cbn; split; [intro e; split; congruence
                 | split; [intros (h & v & H); discriminate H
                          | discriminate]]|].
  destruct (jgt (jmul (num_of numObj) objW) wallW);
    [cbn; split; [intro e; split; congruence
                 | split; [intros (h & v & H); discriminate H
                          | discriminate]]|].
  destruct (jgt (spacing_of sp) (JFin 0) && jgt (num_of numObj) (JFin 1))%bool.
  - destruct (jgt (jadd (jmul (num_of numObj) objW)
                     (jmul (jsub (num_of numObj) (JFin 1)) (spacing_of sp)))
                wallW);
      [cbn; split; [intro e; split; congruence
                   | split; [intros (h & v & H); discriminate H
                            | discriminate]]|].
    destruct (place _ _ _ _ _ _ _) as [os html].
    cbn. split; [intro e; split; discriminate|].
    split; [reflexivity|]. intros _. eexists. eexists. reflexivity.
  - destruct (jeqb (num_of numObj) (JFin 1)).
    + cbn. split; [intro e; split; discriminate|].
      split; [reflexivity|]. intros _. eexists. eexists. reflexivity.
    + destruct (place _ _ _ _ _ _ _) as [os html].
      cbn. split; [intro e; split; discriminate|].
      split; [reflexivity|]. intros _. eexists. eexists. reflexivity.
Qed.

Lemma first_failing_check_wins_example :
  computeLayout (JFin 100) (IInt 3) (JFin 40) (JFin (-1))
  = Failure NegativeSpacing.
Proof.
  apply (proj1 (first_failing_check_wins (JFin 100) (JFin 40) (JFin (-1))
                  (IInt 3))).
  reflexivity.
Defined.

(** X2. With a single object the desired spacing plays no part: any two
    spacings that are not negative, even an infinite one, give the same
    outcome.  An accepted request gives one object of the width asked for,
    starting at [(wallLength - objectWidth) / 2], which is also the side gap
    reported, in desired mode with inner gap 0; on a finite wall that start
    is not negative. *)
Theorem single_object_ignores_spacing (wallW objW sp sp' : jsnum) :
  jlt (spacing_of sp) (JFin 0) = false ->
  jlt (spacing_of sp') (JFin 0) = false ->
  computeLayout wallW (IInt 1) objW sp = computeLayout wallW (IInt 1) objW sp'
  /\ (forall html v,
        computeLayout wallW (IInt 1) objW sp = Success html v ->
        v = mkVisualData wallW
              [mkObject (jdiv (jsub wallW objW) (JFin 2)) objW] desired None
              (Some (jdiv (jsub wallW objW) (JFin 2))) (Some (JFin 0))
        /\ (isFinite wallW = true ->
            jle (JFin 0) (jdiv (jsub wallW objW) (JFin 2)) = true)).
Proof.
  intros Hsp Hsp'.
  assert (Hshape : forall p,
    jlt (spacing_of p) (JFin 0) = false ->
    computeLayout wallW (IInt 1) objW p
    = if (isNaN wallW || isNaN (num_of (IInt 1)) || isNaN objW)%bool
      then Failure InvalidInput
      else if jle wallW (JFin 0) then Failure NonPositiveWall
      else if jle objW (JFin 0) then Failure NonPositiveObject
      else if jgt (jmul (num_of (IInt 1)) objW) wallW
      then Failure ObjectsExceedWall
      else Success
             (object_lines 0 (jdiv (jsub wallW objW) (JFin 2))
                (jadd (jdiv (jsub wallW objW) (JFin 2)) (jdiv objW (JFin 2)))
                (jadd (jdiv (jsub wallW objW) (JFin 2)) objW))
             (mkVisualData wallW
                [mkObject (jdiv (jsub wallW objW) (JFin 2)) objW] desired None
                (Some (jdiv (jsub wallW objW) (JFin 2))) (Some (JFin 0)))).
  { intros p Hp. unfold computeLayout; cbv zeta. rewrite Hp.
    change (jlt (num_of (IInt 1)) (JFin 1)) with false.
    change (jgt (num_of (IInt 1)) (JFin 1)) with false.
    change (jeqb (num_of (IInt 1)) (JFin 1)) with true.
    rewrite andb_false_r. reflexivity. }
  split; [rewrite (Hshape sp Hsp), (Hshape sp' Hsp'); reflexivity|].
  intros html v H. split.
  - rewrite (Hshape sp Hsp) in H.
    destruct (isNaN wallW || isNaN (num_of (IInt 1)) || isNaN objW)%bool;
      [discriminate H|].
    destruct (jle wallW (JFin 0)); [discriminate H|].
    destruct (jle objW (JFin 0)); [discriminate H|].
    destruct (jgt (jmul (num_of (IInt 1)) objW) wallW); [discriminate H|].
    injection H as _ <-. reflexivity.
  - intro Hfin. destruct wallW as [| | |W]; try discriminate Hfin.
    destruct (computeLayout_success _ _ _ _ _ _ H)
      as (z & w & c & g & Ez & -> & _ & _ & _ & Hc & _ & Hfill & _).
    injection Ez as <-.
    change (jle (JFin 0) (jdiv (jsub (JFin W) (JFin w)) (JFin 2)))
      with (Qle_bool 0 ((W - w) / 2)).
    apply Qle_bool_iff.
    change (inject_Z 1) with 1 in Hfill.
    apply Qle_shift_div_l; lra.
Qed.

Lemma single_object_ignores_spacing_example :
  computeLayout (JFin 100) (IInt 1) (JFin 30) JNaN
  = computeLayout (JFin 100) (IInt 1) (JFin 30) JPosInf.
Proof.
  apply (single_object_ignores_spacing (JFin 100) (JFin 30) JNaN JPosInf);
    reflexivity.
Defined.

(** X3. Objects whose total width, as the code computes it, equals the wall
    length are accepted when no spacing is asked for: the gap the layout
    reports is 0, the first object starts at 0, and every object starts
    where the one before it ends. *)
Theorem exact_fit_is_back_to_back (W w : Q) (z : Z) (sp : jsnum) :
  0 < W -> 0 < w -> (1 <= z)%Z ->
  jeq (spacing_of sp) (JFin 0) ->
  jeq (jmul (num_of (IInt z)) (JFin w)) (JFin W) ->
  exists html v,
    computeLayout (JFin W) (IInt z) (JFin w) sp = Success html v
    /\ List.length (objects v) = Z.to_nat z
    /\ (exists gap, (gapSize v = Some gap \/ sideGap v = Some gap)
                    /\ jeq gap (JFin 0))
    /\ (exists o, nth_error (objects v) 0 = Some o /\ jeq (start o) (JFin 0))
    /\ (forall i o o',
          nth_error (objects v) i = Some o ->
          nth_error (objects v) (S i) = Some o' ->
          jeq (start o') (obj_end o)).
Proof.
  intros HW Hw Hz Hsp Hfit.
  change (inject_Z z * w == W) in Hfit.
  destruct (spacing_zero sp Hsp) as (s & Es & Hs).
  destruct (computeLayout_accepts W w s z sp) as (html & v & H);
    try assumption; try lra.
  exists html, v. split; [exact H|].
  destruct (computeLayout_success _ _ _ _ _ _ H)
    as (z' & w' & c & g & Ez & Ew & _ & _ & _ & Hc & Hg & Hfill & _ & Eobjs
        & Hp).
  injection Ez as <-. injection Ew as <-.
  pose proof (inject_Z_ge_1 z Hz) as Hq.
  assert (Hc0 : c == 0) by nra.
  assert (Hstep : forall i o o',
            nth_error (objects v) i = Some o ->
            nth_error (objects v) (S i) = Some o' ->
            exists p p', start o = JFin p /\ width o = JFin w
                         /\ start o' = JFin p' /\ p' == p + w + g).
  { intros i o o' Ho Ho'. rewrite Eobjs in Ho, Ho'.
    destruct (qobjs_nth w g _ _ _ _ Ho) as (p & Es1 & Ep & Ew1).
    destruct (qobjs_nth w g _ _ _ _ Ho') as (p' & Es2 & Ep' & _).
    exists p, p'. repeat split; try assumption.
    rewrite Ep', Ep, of_nat_S. ring. }
  split; [rewrite Eobjs; apply qobjs_length|].
  assert (Hfirst : exists o, nth_error (objects v) 0 = Some o
                             /\ jeq (start o) (JFin 0)).
  { rewrite Eobjs. destruct (Z.to_nat z) as [|k] eqn:Ek; [lia|].
    exists (mkObject (JFin c) (JFin w)). split; [reflexivity | exact Hc0]. }
  destruct Hp as [_ Hpos Eg _ _ _ _ | Ez1 _ _ Hside _
                 | Hz1 _ Ecg _ Hgap _ _].
  - rewrite Es in Eg. injection Eg as Eg. rewrite Eg in Hs. lra.
  - split; [exists (JFin c); split; [right; exact Hside | exact Hc0]|].
    split; [exact Hfirst|].
    intros i o o' Ho Ho'. rewrite Eobjs, Ez1 in Ho'.
    destruct i; discriminate Ho'.
  - assert (Hg0 : g == 0) by (rewrite <- Ecg; exact Hc0).
    split; [exists (JFin g); split; [left; exact Hgap | exact Hg0]|].
    split; [exact Hfirst|].
    intros i o o' Ho Ho'.
    destruct (Hstep i o o' Ho Ho') as (p & p' & E1 & E2 & E3 & E4).
    unfold obj_end. rewrite E1, E2, E3. simpl. lra.
Qed.

Lemma exact_fit_is_back_to_back_example :
  exists html v,
    computeLayout (JFin 90) (IInt 3) (JFin 30) JNaN = Success html v
    /\ List.length (objects v) = 3%nat.
Proof.
  destruct (exact_fit_is_back_to_back 90 30 3%Z JNaN)
    as (html & v & H & Hl & _);
    try reflexivity; try discriminate.
  exists html, v. split; [exact H | exact Hl].
Defined.

Lemma Math_max_least (x bound : Q) :
  1 <= bound -> x <= bound -> Math_max 1 x <= bound.
Proof.
  intros H1 Hx. unfold Math_max. destruct (Qlt_bool 1 x); assumption.
Qed.

Section PinchDirection.

Variable Math_sqrt : Q -> Q.

Lemma run_snapshot (events : list Event) :
  forall s,
    1 <= scale (transform s) /\ 1 <= scale (startTransform s)
    /\ 0 <= containerWidth s ->
    1 <= scale (transform (run Math_sqrt s events))
    /\ 1 <= scale (startTransform (run Math_sqrt s events))
    /\ 0 <= containerWidth (run Math_sqrt s events).
Proof.
  induction events as [|e events IH]; intros s Hs; [exact Hs|].
  change (run Math_sqrt s (e :: events))
    with (run Math_sqrt (step Math_sqrt s e) events).
  apply IH, step_snapshot, Hs.
Qed.

(** X12. A pinch follows the fingers.  In every state the component can
    reach while a pinch is on (initial distance above 0), a two-finger move
    gives a scale of at least 1 that is not below the scale of the snapshot
    when the fingers are at least as far apart as at the start, and not above
    it when they are at most as far apart. *)
Theorem pinch_follows_fingers (events : list Event) (t0 t1 : Point)
    (svgRect : Rect) :
  0 < initialPinchDistance (run Math_sqrt initialView events) ->
  1 <= scale (transform
                (handleTouchMove Math_sqrt [t0; t1] svgRect
                   (run Math_sqrt initialView events)))
  /\ (initialPinchDistance (run Math_sqrt initialView events)
      <= distance Math_sqrt t0 t1 ->
      scale (startTransform (run Math_sqrt initialView events))
      <= scale (transform
                  (handleTouchMove Math_sqrt [t0; t1] svgRect
                     (run Math_sqrt initialView events))))
  /\ (distance Math_sqrt t0 t1
      <= initialPinchDistance (run Math_sqrt initialView events) ->
      scale (transform
               (handleTouchMove Math_sqrt [t0; t1] svgRect
                  (run Math_sqrt initialView events)))
      <= scale (startTransform (run Math_sqrt initialView events))).
Proof.
  intro Hd.
  destruct (run_snapshot events initialView) as (_ & Hs & _);
    [simpl; repeat split; discriminate|].
  set (s := run Math_sqrt initialView events) in *. clearbody s.
  unfold handleTouchMove.
  destruct (Qlt_bool 0 (initialPinchDistance s)) eqn:E;
    [|reflect_tests; lra].
  change (scale (transform (pinch_to Math_sqrt t0 t1 svgRect s)))
    with (Math_max 1 (scale (startTransform s)
                      * (distance Math_sqrt t0 t1 / initialPinchDistance s))).
  set (d := distance Math_sqrt t0 t1). clearbody d.
  set (d0 := initialPinchDistance s) in *. clearbody d0.
  set (s0 := scale (startTransform s)) in *. clearbody s0.
  split; [apply Math_max_lower|]. split.
  - intro Hle.
    assert (Hm : 1 <= d / d0) by (apply Qle_shift_div_l; lra).
    pose proof (Math_max_upper 1 (s0 * (d / d0))) as Hup.
    set (m := d / d0) in *. clearbody m. nra.
  - intro Hle.
    assert (Hm : d / d0 <= 1) by (apply Qle_shift_div_r; lra).
    apply Math_max_least; [exact Hs|].
    set (m := d / d0) in *. clearbody m. nra.
Qed.

End PinchDirection.

Lemma pinch_follows_fingers_example :
  scale (startTransform
           (run integer_sqrt initialView
              [TouchStart [mkPoint 0 0; mkPoint 3 4]]))
  <= scale (transform pinched_view).
Proof.
  apply (pinch_follows_fingers integer_sqrt
           [TouchStart [mkPoint 0 0; mkPoint 3 4]]
           (mkPoint 0 0) (mkPoint 6 8) (mkRect 0 0));
    [reflexivity | discriminate].
Defined.

(** X16. Zooming out never enlarges.  From a scale of at least 1, a wheel
    event with [deltaY >= 0] gives a scale between 1 and the old scale; at
    the fit scale 1 it leaves the scale at 1. *)
Theorem wheel_out_never_enlarges (deltaY : Q) (cursor : Point)
    (svgRect : Rect) (s : ViewState) :
  1 <= scale (transform s) -> 0 <= deltaY ->
  1 <= scale (transform (handleWheel deltaY cursor svgRect s))
  /\ scale (transform (handleWheel deltaY cursor svgRect s))
     <= scale (transform s)
  /\ (scale (transform s) == 1 ->
      scale (transform (handleWheel deltaY cursor svgRect s)) == 1).
Proof.
  intros Hs Hd.
  change (scale (transform (handleWheel deltaY cursor svgRect s)))
    with (Math_max 1 (scale (transform s) + - deltaY * wheel_factor)).
  assert (Hx : scale (transform s) + - deltaY * wheel_factor
               <= scale (transform s))
    by (unfold wheel_factor; lra).
  pose proof (Math_max_lower 1
                (scale (transform s) + - deltaY * wheel_factor)) as Hlow.
  pose proof (Math_max_least _ _ Hs Hx) as Hup.
  split; [exact Hlow|]. split; [exact Hup|].
  intro H1. lra.
Qed.

Lemma wheel_out_never_enlarges_example :
  scale (transform
           (handleWheel 500 (mkPoint 10 10) (mkRect 0 0) zoomed_view))
  <= scale (transform zoomed_view).
Proof.
  apply (wheel_out_never_enlarges 500 (mkPoint 10 10) (mkRect 0 0)
           zoomed_view); discriminate.
Defined.

(** While the pinch is on, the late moves bring the scale to 3; once the
    fingers are lifted, which clears the initial distance, the same moves
    change nothing. *)
Lemma moves_after_the_end_are_ignored_example :
  scale (transform pinched_view) == 2
  /\ scale (transform (run integer_sqrt pinched_view late_moves)) == 3
  /\ handleTouchEnd pinched_view <> pinched_view
  /\ run integer_sqrt (handleTouchEnd pinched_view) late_moves
     = handleTouchEnd pinched_view.
Proof.
  split; [reflexivity|]. split; [reflexivity|]. split; [discriminate|].
  apply (moves_after_the_end_are_ignored integer_sqrt pinched_view).
  reflexivity.
Defined.

(** ** The layout on doubles *)

Lemma place_steps (todo : nat) :
  forall i w g c acc html,
    fst (Binary64.place todo i w g c acc html)
    = (acc ++ Binary64.steps todo c w g)%list.
Proof.
  induction todo as [|todo IH]; intros i w g c acc html.
  - simpl. now rewrite app_nil_r.
  - simpl. rewrite IH, <- app_assoc. reflexivity.
Qed.

Lemma steps_nth (w g : PrimFloat.float) (todo : nat) :
  forall c i o o',
    nth_error (Binary64.steps todo c w g) i = Some o ->
    nth_error (Binary64.steps todo c w g) (S i) = Some o' ->
    Binary64.width o = w
    /\ Binary64.start o' = PrimFloat.add (Binary64.obj_end o) g.
Proof.
  induction todo as [|todo IH]; intros c i o o' H H'.
  - destruct i; discriminate H.
  - destruct i as [|i].
    + destruct todo as [|todo']; [discriminate H'|].
      injection H as <-. injection H' as <-. split; reflexivity.
    + exact (IH _ _ _ _ H H').
Qed.

Lemma steps_widths (w g : PrimFloat.float) (todo : nat) :
  forall c, Forall (fun o => Binary64.width o = w) (Binary64.steps todo c w g).
Proof.
  induction todo as [|todo IH]; intro c; constructor; [reflexivity|apply IH].
Qed.

Lemma steps_length (w g : PrimFloat.float) (todo : nat) :
  forall c, List.length (Binary64.steps todo c w g) = todo.
Proof.
  induction todo as [|todo IH]; intro c; [reflexivity|].
  simpl. now rewrite IH.
Qed.

(** X21. What an accepted layout holds on doubles.  The wall length and the
    object width are stored as given; the gap fields are the expressions of
    the code, each operation rounded: in uniform mode [gapSize = (wallW -
    numObj * objW) / (numObj + 1)], with several objects and a spacing
    [sideGap = (wallW - (numObj * objW + (numObj - 1) * space)) / 2] and
    [innerGap = space], with one object [sideGap = (wallW - objW) / 2] and
    [innerGap = 0]; the first object starts at that gap, and each next
    object starts at the rounded end of the one before it plus the gap
    between objects, rounded again. *)
Theorem layout_on_doubles (wallW : PrimFloat.float) (numObj : jsint)
    (objW sp : PrimFloat.float) (html : string) (v : Binary64.VisualData) :
  Binary64.computeLayout wallW numObj objW sp = Binary64.Success html v ->
  Binary64.wallWidth v = wallW
  /\ Forall (fun o => Binary64.width o = objW) (Binary64.objects v)
  /\ exists first step,
       (forall i o o',
           nth_error (Binary64.objects v) i = Some o ->
           nth_error (Binary64.objects v) (S i) = Some o' ->
           Binary64.start o' = PrimFloat.add (Binary64.obj_end o) step)
       /\ ((Binary64.mode v = uniform
            /\ Binary64.gapSize v = Some first
            /\ Binary64.sideGap v = None /\ Binary64.innerGap v = None
            /\ step = first
            /\ first = PrimFloat.div
                         (PrimFloat.sub wallW
                            (PrimFloat.mul (Binary64.num_of numObj) objW))
                         (PrimFloat.add (Binary64.num_of numObj)
                            PrimFloat.one)
            /\ Binary64.objects v
               = Binary64.steps (iterations numObj) first objW step)
           \/ (Binary64.mode v = desired
               /\ Binary64.gapSize v = None
               /\ Binary64.sideGap v = Some first
               /\ Binary64.innerGap v = Some step
               /\ step = Binary64.jor sp PrimFloat.zero
               /\ PrimFloat.ltb PrimFloat.zero step = true
               /\ first = PrimFloat.div
                            (PrimFloat.sub wallW
                               (PrimFloat.add
                                  (PrimFloat.mul (Binary64.num_of numObj)
                                     objW)
                                  (PrimFloat.mul
                                     (PrimFloat.sub (Binary64.num_of numObj)
                                        PrimFloat.one)
                                     step)))
                            PrimFloat.two
               /\ Binary64.objects v
                  = Binary64.steps (iterations numObj) first objW step)
           \/ (Binary64.mode v = desired
               /\ Binary64.gapSize v = None
               /\ Binary64.sideGap v = Some first
               /\ Binary64.innerGap v = Some PrimFloat.zero
               /\ first = PrimFloat.div (PrimFloat.sub wallW objW)
                            PrimFloat.two
               /\ Binary64.objects v = [Binary64.mkObject first objW])).
Proof.
  unfold Binary64.computeLayout; cbv zeta.
  destruct (Binary64.isNaN wallW || Binary64.isNaN (Binary64.num_of numObj)
            || Binary64.isNaN objW)%bool; [discriminate|].
  destruct (PrimFloat.leb wallW PrimFloat.zero); [discriminate|].
  destruct (PrimFloat.leb objW PrimFloat.zero); [discriminate|].
  destruct (PrimFloat.ltb (Binary64.num_of numObj) PrimFloat.one);
    [discriminate|].
  destruct (PrimFloat.ltb (Binary64.jor sp PrimFloat.zero) PrimFloat.zero);
    [discriminate|].
  destruct (PrimFloat.ltb wallW
              (PrimFloat.mul (Binary64.num_of numObj) objW));
    [discriminate|].
  destruct (PrimFloat.ltb PrimFloat.zero (Binary64.jor sp PrimFloat.zero))
    eqn:Epos.
  - destruct (PrimFloat.ltb PrimFloat.one (Binary64.num_of numObj)).
    + cbn [andb].
      destruct (PrimFloat.ltb wallW _); [discriminate|].
      destruct (Binary64.place _ _ _ _ _ _ _) as [os h] eqn:Ep.
      apply (f_equal fst) in Ep. rewrite place_steps in Ep. simpl in Ep.
      intro H; injection H as _ <-. subst os.
      split; [reflexivity|]. split; [apply steps_widths|].
      eexists. exists (Binary64.jor sp PrimFloat.zero). split.
      * intros i o o' Ho Ho'.
        exact (proj2 (steps_nth _ _ _ _ _ _ _ Ho Ho')).
      * right; left. repeat split; try reflexivity. exact Epos.
    + cbn [andb].
      destruct (PrimFloat.eqb (Binary64.num_of numObj) PrimFloat.one).
      * intro H; injection H as _ <-.
        split; [reflexivity|].
        split; [repeat constructor|].
        eexists. exists PrimFloat.zero. split.
        -- intros i o o' Ho Ho'. destruct i; discriminate Ho'.
        -- right; right. repeat split; reflexivity.
      * destruct (Binary64.place _ _ _ _ _ _ _) as [os h] eqn:Ep.
        apply (f_equal fst) in Ep. rewrite place_steps in Ep. simpl in Ep.
        intro H; injection H as _ <-. subst os.
        split; [reflexivity|]. split; [apply steps_widths|].
        eexists. eexists. split.
        -- intros i o o' Ho Ho'.
           exact (proj2 (steps_nth _ _ _ _ _ _ _ Ho Ho')).
        -- left. repeat split; reflexivity.
  - cbn [andb].
    destruct (PrimFloat.eqb (Binary64.num_of numObj) PrimFloat.one).
    + intro H; injection H as _ <-.
      split; [reflexivity|].
      split; [repeat constructor|].
      eexists. exists PrimFloat.zero. split.
      * intros i o o' Ho Ho'. destruct i; discriminate Ho'.
      * right; right. repeat split; reflexivity.
    + destruct (Binary64.place _ _ _ _ _ _ _) as [os h] eqn:Ep.
      apply (f_equal fst) in Ep. rewrite place_steps in Ep. simpl in Ep.
      intro H; injection H as _ <-. subst os.
      split; [reflexivity|]. split; [apply steps_widths|].
      eexists. eexists. split.
      * intros i o o' Ho Ho'.
        exact (proj2 (steps_nth _ _ _ _ _ _ _ Ho Ho')).
      * left. repeat split; reflexivity.
Qed.

Lemma layout_on_doubles_example :
  exists html v,
    Binary64.layout_of "100" "2" "10" "" = Binary64.Success html v
    /\ Binary64.wallWidth v = Binary64.parseFloat "100"
    /\ Forall (fun o => Binary64.width o = Binary64.parseFloat "10")
         (Binary64.objects v).
Proof.
  eexists. eexists. split; [vm_compute; reflexivity|].
  destruct (layout_on_doubles (Binary64.parseFloat "100") (IInt 2)
              (Binary64.parseFloat "10") (Binary64.parseFloat "") _ _
              eq_refl) as (Hw & Hall & _).
  split; [exact Hw | exact Hall].
Defined.
